(** * Home Assistant log file writer: rotation sink and stream pump

    A shallow embedding of [log-viewer/log-writer.py] together with the
    parts of the Python standard library it drives ([re.sub],
    [logging.FileHandler], [logging.handlers.RotatingFileHandler],
    [logging.handlers.TimedRotatingFileHandler], [subprocess.Popen]),
    followed by the properties of the program. *)

From Stdlib Require Import ZArith NArith List String Ascii Lia Bool.
From Stdlib Require Import DecimalString.
From stdpp Require Import base option list gmap sorting.
Import ListNotations.

Local Open Scope Z_scope.

(** ** Python text *)

(** A Python [str] is a sequence of Unicode code points. *)
Definition codepoint := N.
Definition str := list codepoint.

Definition ESC : codepoint := 27%N.
Definition LBRACKET : codepoint := 91%N.
Definition LF : codepoint := 10%N.

(** Reading an ASCII literal as a Python [str]. *)
Definition of_string (s : string) : str :=
  map N_of_ascii (list_ascii_of_string s).

(** ** The [re] fragment used by the program *)

Module Re.

(** A character class: a literal, or a bracket set given by its ranges
    ([[0-9;]] is the ranges 0-9 and ;-;). *)
Inductive charclass :=
  | Lit (c : codepoint)
  | Ranges (rs : list (codepoint * codepoint)).

(** One pattern element: a class, or a greedy star of a class. *)
Inductive item :=
  | One (k : charclass)
  | Star (k : charclass).

Definition regex := list item.

Definition in_range (lo hi c : codepoint) : bool :=
  ((lo <=? c) && (c <=? hi))%N.

Definition cc_mem (k : charclass) (c : codepoint) : bool :=
  match k with
  | Lit a => (a =? c)%N
  | Ranges rs => existsb (fun r => in_range (fst r) (snd r) c) rs
  end.

(** [match_at r s]: the backtracking matcher anchored at the start of [s];
    the result is the number of code points the match consumes. A star takes
    as many code points as it can and gives them back one at a time while the
    rest of the pattern fails. *)
Fixpoint match_at (r : regex) (s : str) {struct r} : option nat :=
  match r with
  | [] => Some O
  | One k :: r' =>
      match s with
      | c :: s' => if cc_mem k c then S <$> match_at r' s' else None
      | [] => None
      end
  | Star k :: r' =>
      (fix star (s : str) : option nat :=
         match s with
         | c :: s' =>
             if cc_mem k c then
               match star s' with
               | Some n => Some (S n)
               | None => match_at r' s
               end
             else match_at r' s
         | [] => match_at r' s
         end) s
  end.

(** [pattern.sub('', text)]: scan from the left; where the pattern matches,
    drop the match and go on after it; elsewhere copy one code point.
    [skip] counts the code points of the current match still to drop. An
    empty match removes nothing. *)
Fixpoint sub_from (r : regex) (skip : nat) (s : str) : str :=
  match s with
  | [] => []
  | c :: s' =>
      match skip with
      | S k => sub_from r k s'
      | O =>
          match match_at r s with
          | Some (S k) => sub_from r k s'
          | _ => c :: sub_from r O s'
          end
      end
  end.

Definition sub_empty (r : regex) (text : str) : str := sub_from r O text.

End Re.

(** ** [strip_ansi_codes] *)

(** [re.compile(r'\x1b\[[0-9;]*[a-zA-Z]')] *)
Definition ansi_escape_pattern : Re.regex :=
  [ Re.One (Re.Lit ESC);
    Re.One (Re.Lit LBRACKET);
    Re.Star (Re.Ranges [(48, 57); (59, 59)]%N);
    Re.One (Re.Ranges [(97, 122); (65, 90)]%N) ].

Definition strip_ansi_codes (text : str) : str :=
  Re.sub_empty ansi_escape_pattern text.

(** The claim's words: a parameter is a digit or a semicolon, the terminator
    one ASCII letter. *)
Definition is_param (c : codepoint) : bool :=
  (Re.in_range 48 57 c || (c =? 59))%N.

Definition is_letter (c : codepoint) : bool :=
  (Re.in_range 97 122 c || Re.in_range 65 90 c)%N.

Inductive escape_seq : str -> Prop :=
  | EscapeSeq ps c :
      Forall (fun p => is_param p = true) ps ->
      is_letter c = true ->
      escape_seq (ESC :: LBRACKET :: ps ++ [c]).

(** [removed s t]: [t] is [s] with the escape sequences removed and every
    other code point kept in place. *)
Inductive removed : str -> str -> Prop :=
  | removed_nil : removed [] []
  | removed_seq e s t :
      escape_seq e -> removed s t -> removed (e ++ s) t
  | removed_keep c s t :
      (forall e s', escape_seq e -> c :: s <> e ++ s') ->
      removed s t -> removed (c :: s) (c :: t).

(** Plain text free of ESC interleaved with escape sequences. *)
Inductive interleaved : str -> Prop :=
  | interleaved_nil : interleaved []
  | interleaved_plain c s : c <> ESC -> interleaved s -> interleaved (c :: s)
  | interleaved_seq e s : escape_seq e -> interleaved s -> interleaved (e ++ s).

Example strip_ansi_codes_error_boom :
  strip_ansi_codes (ESC :: of_string "[31mERROR" ++ ESC :: of_string "[0m: boom")
  = of_string "ERROR: boom".
Proof. reflexivity. Qed.

(** The part of the pattern after ESC '['. *)
Definition params_then_letter : Re.regex :=
  [ Re.Star (Re.Ranges [(48, 57); (59, 59)]%N);
    Re.One (Re.Ranges [(97, 122); (65, 90)]%N) ].

(** An input on which one pass splices a new sequence together:
    ESC '[' '3' ESC '[' '0' 'm' 'm'. *)
Definition spliced : str :=
  ESC :: of_string "[3" ++ ESC :: of_string "[0mm".

(** [line.rstrip('\n')]: drop every trailing line feed. *)
Fixpoint rstrip_LF (s : str) : str :=
  match s with
  | [] => []
  | c :: s' =>
      match rstrip_LF s' with
      | [] => if (c =? LF)%N then [] else [c]
      | r => c :: r
      end
  end.

(** ** Exceptions and console output *)

Inductive exn :=
  | PermissionError
  | FileNotFoundError
  | OtherOSError
  | TimeoutExpired
  | OtherException
  | KeyboardInterrupt
  | SystemExit (code : Z)
  | ProcessKilled (sig : Z).   (* no Python exception: the default action of a
                                  signal ends the interpreter at once *)

(** [isinstance(e, OSError)] and the like. *)
Definition is_OSError (e : exn) : bool :=
  match e with
  | PermissionError | FileNotFoundError | OtherOSError => true
  | _ => false
  end.

Definition is_PermissionError (e : exn) : bool :=
  match e with PermissionError => true | _ => false end.

Definition is_Exception (e : exn) : bool :=
  match e with
  | KeyboardInterrupt | SystemExit _ | ProcessKilled _ => false
  | _ => true
  end.

(** The values [LOG_ROTATE_DAYS] can hold once the module is loaded: [None],
    the empty string (the conversion only runs on a non-empty string), or an
    [int]. *)
Inductive rotate_days_value :=
  | RdNone
  | RdEmpty
  | RdInt (n : Z).

(** Python truth value of such a value. *)
Definition truthy (v : rotate_days_value) : bool :=
  match v with
  | RdNone | RdEmpty => false
  | RdInt n => negb (n =? 0)
  end.

(** The lines the program prints, one constructor per [print] call of the
    source, holding the values its f-string interpolates. *)
Inductive message :=
  | OutRule                                  (* "=" * 60 *)
  | OutTitle                                 (* Home Assistant Log File Writer *)
  | OutLogFile (path : str)                  (* Log file: {LOG_FILE} *)
  | OutRotation (v : rotate_days_value)      (* Rotation: ... *)
  | OutVerbose (b : bool)                    (* Verbose: {VERBOSE} *)
  | OutUsingTimed (days : Z)                 (* Using TimedRotatingFileHandler: ... keep {rotate_days} days *)
  | OutUsingRotating                         (* Using RotatingFileHandler: single backup on startup *)
  | OutRolledOver (path : str)               (* Rolled over existing log to: {log_path}.1 *)
  | OutStarting (cmd : list string)          (* Starting log capture: {' '.join(cmd)} *)
  | OutReceivedSignal                        (* Received shutdown signal, terminating... *)
  | OutShuttingDown                          (* Shutting down gracefully... *)
  | ErrRollingOver (err : exn)               (* Error rolling over log file: {err} *)
  | ErrPermissionDenied (path : str) (err : exn) (* ERROR: Permission denied writing to ... *)
  | ErrCannotCreate (path : str) (err : exn) (* ERROR: Cannot create log handler for ... *)
  | ErrStreaming (err : exn)                 (* Error streaming logs: {e} *)
  | ErrExitedWithCode (code : Z)             (* ERROR: 'ha core logs' exited with code {returncode} *)
  | WarnLogFileSize (bytes : Z)              (* WARNING: Log file is {size_mb:.1f}MB ... *)
  | ErrLoggingError (err : exn).             (* --- Logging error --- (Handler.handleError) *)

(** ** The operating system *)

(** The directory entries that belong to the log: the active file
    [<path>], the numbered backups [<path>.<i>] and the dated backups
    [<path>.YYYY-MM-DD], a date being kept as its day number. *)
Inductive name :=
  | Base
  | Numbered (i : Z)
  | Dated (d : Z).

Global Instance name_eq_dec : EqDecision name.
Proof. solve_decision. Defined.

Definition name_code (n : name) : Z + Z :=
  match n with
  | Base => inl 0
  | Numbered i => inl (if 0 <=? i then i + 1 else i)
  | Dated d => inr d
  end.

Definition name_decode (c : Z + Z) : name :=
  match c with
  | inl 0 => Base
  | inl i => Numbered (if 0 <? i then i - 1 else i)
  | inr d => Dated d
  end.

Lemma name_decode_code n : name_decode (name_code n) = n.
Proof.
  destruct n as [|i|d]; cbn; try reflexivity.
  destruct (Z.leb_spec 0 i).
  - destruct (i + 1) eqn:E; try lia.
    rewrite <- E. destruct (Z.ltb_spec 0 (i + 1)); f_equal; lia.
  - destruct i; try lia. reflexivity.
Qed.

Global Instance name_countable : Countable name :=
  inj_countable' name_code name_decode name_decode_code.

Record file := File {
  content : str;
  mtime : Z;
  writable : bool
}.

Inductive syscall :=
  | SysOpen (n : name)
  | SysClose
  | SysWrite (data : str)
  | SysExists (n : name)
  | SysIsFile (n : name)
  | SysStat (n : name)
  | SysGetsize (n : name)
  | SysListdir
  | SysRemove (n : name)
  | SysRename (src dst : name)
  | SysMkdir
  | SysSpawn (cmd : list string)
  | SysKill (sig : Z)
  | SysWait (timeout : Z).

(** A call that looks at the existence, type, age or size of a file. *)
Definition is_check (c : syscall) : bool :=
  match c with
  | SysExists _ | SysIsFile _ | SysStat _ | SysGetsize _ | SysListdir => true
  | _ => false
  end.

(** A call that renames or deletes a file. *)
Definition is_rotation (c : syscall) : bool :=
  match c with
  | SysRemove _ | SysRename _ _ => true
  | _ => false
  end.

(** The time zone the writer runs in (the program leaves [utc=False]): what
    [time.localtime] adds to a time stamp, and its [tm_isdst]. *)
Record timezone := Timezone {
  utcoff : Z -> Z;        (* seconds east of UTC in force at a time *)
  isdst : Z -> bool       (* whether daylight saving time is in force then *)
}.

(** A zone whose offset never changes; [UTC] is the one of offset 0. *)
Definition fixed_offset (off : Z) : timezone :=
  {| utcoff := fun _ => off; isdst := fun _ => false |}.

Definition UTC : timezone := fixed_offset 0.

Record world := World {
  files : gmap name file;
  dir_writable : bool;    (* may entries of the directory be created, renamed, deleted *)
  now : Z;                (* time.time(), in seconds *)
  stdout : list message;
  stderr : list message;
  trace : list syscall;   (* the calls made so far, oldest first *)
  tz : timezone
}.

(** ** The objects of the program *)

Inductive handler_class :=
  | TimedRotatingFileHandler
  | RotatingFileHandlerWithoutShouldRollOver.

(** The fields of the handler object the program reads or writes. [stream]
    is whether [self.stream] is an open file (it is [None] otherwise). *)
Record handler := Handler {
  h_class : handler_class;
  backupCount : Z;
  stream : bool;
  rolloverAt : Z
}.

(** What the producer does next on its output, as the read loop sees it. *)
Inductive pevent :=
  | Line (t : Z) (raw : str)     (* a line arrives at time [t] *)
  | Signal (signum : Z)          (* SIGTERM or SIGINT is delivered to the writer *)
  | ReadRaises (e : exn).        (* reading raises *)

Definition SIGINT : Z := 2.
Definition SIGKILL : Z := 9.
Definition SIGTERM : Z := 15.

(** The child process and its [Popen] object. *)
Record process := Process {
  spawn_error : option exn;   (* what [Popen] raises, if it does *)
  alive : bool;               (* the child is running *)
  status : Z;                 (* its exit status once it is not *)
  eof_status : option Z;      (* the status it exits with when its output ends;
                                 [None]: it closes its output and keeps running *)
  heeds_sigterm : bool;       (* it exits within the grace period on SIGTERM *)
  returncode : option Z;      (* [Popen.returncode] *)
  installed : list Z;         (* the signals [signal_handler] is installed for *)
  seen_by_poll : bool         (* a [poll] made right after the child has ended
                                 already finds it ended; otherwise only a
                                 [wait] does *)
}.

Record machine := Machine {
  os : world;
  self : handler;
  child : process
}.

Definition set_os (w : world) (m : machine) : machine :=
  {| os := w; self := self m; child := child m |}.
Definition set_self (h : handler) (m : machine) : machine :=
  {| os := os m; self := h; child := child m |}.
Definition set_child (p : process) (m : machine) : machine :=
  {| os := os m; self := self m; child := p |}.

Definition set_files (f : gmap name file) (w : world) : world :=
  {| files := f; dir_writable := dir_writable w; now := now w;
     stdout := stdout w; stderr := stderr w; trace := trace w;
     tz := tz w |}.
Definition set_now (t : Z) (w : world) : world :=
  {| files := files w; dir_writable := dir_writable w; now := t;
     stdout := stdout w; stderr := stderr w; trace := trace w;
     tz := tz w |}.
Definition add_stdout (x : message) (w : world) : world :=
  {| files := files w; dir_writable := dir_writable w; now := now w;
     stdout := stdout w ++ [x]; stderr := stderr w; trace := trace w;
     tz := tz w |}.
Definition add_stderr (x : message) (w : world) : world :=
  {| files := files w; dir_writable := dir_writable w; now := now w;
     stdout := stdout w; stderr := stderr w ++ [x]; trace := trace w;
     tz := tz w |}.
Definition add_trace (c : syscall) (w : world) : world :=
  {| files := files w; dir_writable := dir_writable w; now := now w;
     stdout := stdout w; stderr := stderr w; trace := trace w ++ [c];
     tz := tz w |}.

Definition set_stream (b : bool) (h : handler) : handler :=
  {| h_class := h_class h; backupCount := backupCount h; stream := b;
     rolloverAt := rolloverAt h |}.
Definition set_rolloverAt (t : Z) (h : handler) : handler :=
  {| h_class := h_class h; backupCount := backupCount h; stream := stream h;
     rolloverAt := t |}.

(** ** Computations: state and exceptions *)

Inductive result (A : Type) :=
  | Ok (a : A)
  | Raise (e : exn).
Arguments Ok {A} a.
Arguments Raise {A} e.

Definition M (A : Type) : Type := machine -> result A * machine.

Global Instance M_ret : MRet M := fun A a m => (Ok a, m).

Global Instance M_bind : MBind M := fun A B f x m =>
  match x m with
  | (Ok a, m') => f a m'
  | (Raise e, m') => (Raise e, m')
  end.

Definition raise {A} (e : exn) : M A := fun m => (Raise e, m).

(** [try: body except ...: ...]: [clauses e] is the body of the first
    [except] clause that matches [e], if one does. *)
Definition try_except {A} (body : M A) (clauses : exn -> option (M A)) : M A :=
  fun m =>
    match body m with
    | (Ok a, m') => (Ok a, m')
    | (Raise e, m') =>
        match clauses e with
        | Some k => k m'
        | None => (Raise e, m')
        end
    end.

(** [try: body finally: cleanup]. *)
Definition try_finally {A} (body : M A) (cleanup : M unit) : M A :=
  fun m =>
    match body m with
    | (Raise (ProcessKilled sig), m') => (Raise (ProcessKilled sig), m')
    | (r, m') =>
        match cleanup m' with
        | (Ok _, m'') => (r, m'')
        | (Raise e, m'') => (Raise e, m'')
        end
    end.

Definition get {A} (f : machine -> A) : M A := fun m => (Ok (f m), m).
Definition modify (f : machine -> machine) : M unit := fun m => (Ok tt, f m).
Definition modify_os (f : world -> world) : M unit :=
  modify (fun m => set_os (f (os m)) m).
Definition modify_self (f : handler -> handler) : M unit :=
  modify (fun m => set_self (f (self m)) m).
Definition modify_child (f : process -> process) : M unit :=
  modify (fun m => set_child (f (child m)) m).

Definition print (x : message) : M unit := modify_os (add_stdout x).
Definition eprint (x : message) : M unit := modify_os (add_stderr x).
Definition syscall_ (c : syscall) : M unit := modify_os (add_trace c).
Definition sys_exit {A} (code : Z) : M A := raise (SystemExit code).

(** ** File operations

    Every entry of the directory is a regular file. Creating, renaming and
    deleting an entry need write permission on the directory; appending
    needs it on the file. The disk takes the data written to an open file: a
    full disk or a file-size limit is not part of this model, so that writing
    to the stream and flushing it when it is closed succeed. *)

Definition file_exists (w : world) (n : name) : bool :=
  match files w !! n with Some _ => true | None => false end.

Definition os_path_exists (n : name) : M bool :=
  syscall_ (SysExists n);;
  get (fun m => file_exists (os m) n).

Definition os_path_isfile (n : name) : M bool :=
  syscall_ (SysIsFile n);;
  get (fun m => file_exists (os m) n).

Definition os_stat_mtime (n : name) : M Z :=
  syscall_ (SysStat n);;
  w ← get os;
  match files w !! n with
  | Some f => mret (mtime f)
  | None => raise FileNotFoundError
  end.

Definition os_path_getsize (n : name) : M Z :=
  syscall_ (SysGetsize n);;
  w ← get os;
  match files w !! n with
  | Some f => mret (Z.of_nat (length (content f)))
  | None => raise FileNotFoundError
  end.

Definition os_remove (n : name) : M unit :=
  syscall_ (SysRemove n);;
  w ← get os;
  match files w !! n with
  | None => raise FileNotFoundError
  | Some _ =>
      if dir_writable w then modify_os (set_files (delete n (files w)))
      else raise PermissionError
  end.

Definition os_rename (src dst : name) : M unit :=
  syscall_ (SysRename src dst);;
  w ← get os;
  match files w !! src with
  | None => raise FileNotFoundError
  | Some f =>
      if dir_writable w
      then modify_os (set_files (<[dst := f]> (delete src (files w))))
      else raise PermissionError
  end.

Definition os_listdir : M (list name) :=
  syscall_ SysListdir;;
  get (fun m => (map_to_list (files (os m))).*1).

(** [open(name, 'a')]: the file is created, empty, when it does not exist. *)
Definition builtin_open_append (n : name) : M unit :=
  syscall_ (SysOpen n);;
  w ← get os;
  match files w !! n with
  | Some f => if writable f then mret tt else raise PermissionError
  | None =>
      if dir_writable w
      then modify_os (set_files (<[n := File [] (now w) true]> (files w)))
      else raise PermissionError
  end.

(** [stream.write(data)] on the handler's stream, which is always a stream
    on the active file: the handler closes it before it renames the file. *)
Definition stream_write (data : str) : M unit :=
  syscall_ (SysWrite data);;
  modify_os (fun w =>
    set_files
      (alter (fun f => File (content f ++ data) (now w) (writable f)) Base (files w))
      w).

Definition time_time : M Z := get (fun m => now (os m)).

(** ** [logging] and [logging.handlers] *)

Definition _MIDNIGHT : Z := 24 * 60 * 60.

(** Of a clock reading in seconds:
    [(currentHour * 60 + currentMinute) * 60 + currentSecond], and the
    calendar day, counted in days. *)
Definition seconds_into_day (t : Z) : Z := t mod _MIDNIGHT.
Definition day_of (t : Z) : Z := t / _MIDNIGHT.

(** The fields of a [struct_time] the handler reads: the date (which
    [strftime] prints as [%Y-%m-%d]), the time of day and [tm_isdst]. *)
Record struct_time := StructTime {
  tm_date : Z;
  tm_seconds : Z;
  tm_isdst : bool
}.

(** [time.localtime(t)] in the zone [z]. *)
Definition localtime (z : timezone) (t : Z) : struct_time :=
  let clock := t + utcoff z t in
  {| tm_date := day_of clock; tm_seconds := seconds_into_day clock;
     tm_isdst := isdst z t |}.

(** [interval] for [when="midnight"]. *)
Definition interval : Z := 60 * 60 * 24.

(** [TimedRotatingFileHandler.computeRollover] for [when = 'MIDNIGHT'],
    [atTime = None], [utc = False]. *)
Definition computeRollover (z : timezone) (currentTime : Z) : Z :=
  let t := localtime z currentTime in
  let r := _MIDNIGHT - tm_seconds t in
  let r := if r <? 0 then r + _MIDNIGHT else r in
  currentTime + r.

(** [Formatter('%(message)s').format(record)] for a record without exception
    or stack information, and [StreamHandler.terminator]. *)
Definition format (record : str) : str := record.
Definition terminator : str := [LF].

(** [FileHandler._open] *)
Definition _open : M unit := builtin_open_append Base.

(** [Handler.handleError]: the error is reported on standard error and
    dropped ([logging.raiseExceptions] is true). *)
Definition handleError (e : exn) : M unit := eprint (ErrLoggingError e).

(** [FileHandler.__init__] with [delay=False]. *)
Definition FileHandler_init (cls : handler_class) : M unit :=
  _open;;
  modify_self (fun _ => Handler cls 0 true 0).

Definition set_backupCount (n : Z) (h : handler) : handler :=
  {| h_class := h_class h; backupCount := n; stream := stream h;
     rolloverAt := rolloverAt h |}.

(** [RotatingFileHandler.__init__(filename, backupCount=...)] *)
Definition RotatingFileHandler_init (cls : handler_class) (count : Z) : M unit :=
  FileHandler_init cls;;
  modify_self (set_backupCount count).

(** [TimedRotatingFileHandler.__init__(filename, when="midnight",
    backupCount=...)] *)
Definition TimedRotatingFileHandler_init (count : Z) : M unit :=
  FileHandler_init TimedRotatingFileHandler;;
  modify_self (set_backupCount count);;
  e ← os_path_exists Base;
  t ← (if e : bool then os_stat_mtime Base else time_time);
  z ← get (fun m => tz (os m));
  modify_self (set_rolloverAt (computeRollover z t)).

(** [shouldRollover]: the subclass of the program returns [False]; the timed
    handler compares the clock with [rolloverAt]. *)
Definition shouldRollover (record : str) : M bool :=
  h ← get self;
  match h_class h with
  | RotatingFileHandlerWithoutShouldRollOver => mret false
  | TimedRotatingFileHandler =>
      t ← time_time;
      if rolloverAt h <=? t then
        e ← os_path_exists Base;
        if e : bool then
          f ← os_path_isfile Base;
          if f : bool then mret true
          else
            z ← get (fun m => tz (os m));
            modify_self (set_rolloverAt (computeRollover z t));; mret false
        else mret true
      else mret false
  end.

(** [BaseRotatingHandler.rotate] with no [rotator]. *)
Definition rotate (source dest : name) : M unit :=
  e ← os_path_exists source;
  if e : bool then os_rename source dest else mret tt.

Definition close_stream : M unit :=
  h ← get self;
  if stream h then syscall_ SysClose;; modify_self (set_stream false)
  else mret tt.

(** The loop [for i in range(self.backupCount - 1, 0, -1)] of
    [RotatingFileHandler.doRollover], for [i = k, ..., 1]. *)
Fixpoint shift_backups (k : nat) : M unit :=
  match k with
  | O => mret tt
  | S k' =>
      let sfn := Numbered (Z.of_nat k) in
      let dfn := Numbered (Z.of_nat k + 1) in
      e ← os_path_exists sfn;
      (if e : bool then
         e' ← os_path_exists dfn;
         (if e' : bool then os_remove dfn else mret tt);;
         os_rename sfn dfn
       else mret tt);;
      shift_backups k'
  end.

(** [RotatingFileHandler.doRollover] *)
Definition RotatingFileHandler_doRollover : M unit :=
  close_stream;;
  h ← get self;
  (if 0 <? backupCount h then
     shift_backups (Z.to_nat (backupCount h - 1));;
     let dfn := Numbered 1 in
     e ← os_path_exists dfn;
     (if e : bool then os_remove dfn else mret tt);;
     rotate Base dfn
   else mret tt);;
  _open;;
  modify_self (set_stream true).

Definition dated_day (n : name) : option Z :=
  match n with Dated d => Some d | _ => None end.

(** [TimedRotatingFileHandler.getFilesToDelete]: of the directory's entries
    only the dated backups match the prefix and [extMatch]; a date written
    YYYY-MM-DD sorts as its day number does. *)
Definition getFilesToDelete : M (list name) :=
  fileNames ← os_listdir;
  h ← get self;
  let result := omap dated_day fileNames in
  if Z.of_nat (length result) <? backupCount h then mret []
  else
    let sorted := merge_sort Z.le result in
    mret (Dated <$> take (Z.to_nat (Z.of_nat (length result) - backupCount h)) sorted).

Fixpoint remove_all (l : list name) : M unit :=
  match l with
  | [] => mret tt
  | s :: l' => os_remove s;; remove_all l'
  end.

(** [while newRolloverAt <= currentTime: newRolloverAt += self.interval] *)
Definition catch_up (newRolloverAt currentTime : Z) : Z :=
  if newRolloverAt <=? currentTime
  then newRolloverAt + ((currentTime - newRolloverAt) / interval + 1) * interval
  else newRolloverAt.

(** The hour by which [doRollover] shifts a time when daylight saving
    changes: forward when [forward], back otherwise. *)
Definition addend (forward : bool) : Z := if forward then 3600 else -3600.

(** [TimedRotatingFileHandler.doRollover], [utc = False]: the backup is named
    after the local date of the start of the interval, and the next rollover
    is corrected when daylight saving starts or ends before it. *)
Definition TimedRotatingFileHandler_doRollover : M unit :=
  close_stream;;
  currentTime ← time_time;
  z ← get (fun m => tz (os m));
  h ← get self;
  let dstNow := tm_isdst (localtime z currentTime) in
  let t := rolloverAt h - interval in
  let timeTuple := localtime z t in
  let dstThen := tm_isdst timeTuple in
  let timeTuple :=
    if negb (Bool.eqb dstNow dstThen) then localtime z (t + addend dstNow)
    else timeTuple in
  let dfn := Dated (tm_date timeTuple) in
  e ← os_path_exists dfn;
  (if e : bool then os_remove dfn else mret tt);;
  rotate Base dfn;;
  (if 0 <? backupCount h then
     l ← getFilesToDelete;
     remove_all l
   else mret tt);;
  _open;;
  modify_self (set_stream true);;
  let newRolloverAt := catch_up (computeRollover z currentTime) currentTime in
  let dstAtRollover := tm_isdst (localtime z newRolloverAt) in
  let newRolloverAt :=
    if negb (Bool.eqb dstNow dstAtRollover) then newRolloverAt + addend dstNow
    else newRolloverAt in
  modify_self (set_rolloverAt newRolloverAt).

Definition doRollover : M unit :=
  h ← get self;
  match h_class h with
  | RotatingFileHandlerWithoutShouldRollOver => RotatingFileHandler_doRollover
  | TimedRotatingFileHandler => TimedRotatingFileHandler_doRollover
  end.

(** [StreamHandler.emit] *)
Definition StreamHandler_emit (record : str) : M unit :=
  try_except
    (let msg := format record in
     stream_write (msg ++ terminator))
    (fun e => if is_Exception e then Some (handleError e) else None).

(** [FileHandler.emit]; the mode is ['a']. *)
Definition FileHandler_emit (record : str) : M unit :=
  h ← get self;
  (if stream h then mret tt else _open;; modify_self (set_stream true));;
  h ← get self;
  if stream h then StreamHandler_emit record else mret tt.

(** [BaseRotatingHandler.emit] *)
Definition emit (record : str) : M unit :=
  try_except
    (b ← shouldRollover record;
     (if b : bool then doRollover else mret tt);;
     FileHandler_emit record)
    (fun e => if is_Exception e then Some (handleError e) else None).

(** [FileHandler.close]: the stream is flushed and closed, and [self.stream]
    set to [None]; every write having reached the disk, nothing is left for
    the flush to fail on. *)
Definition close : M unit :=
  h ← get self;
  if stream h then modify_self (set_stream false);; syscall_ SysClose
  else mret tt.

(** [logger.info(msg)] on a logger of level INFO whose only handler is the
    file handler, with [propagate] off. *)
Definition logger_info (msg : str) : M unit := emit msg.

(** ** The program *)

(** Lines 18 to 26: [LOG_ROTATE_DAYS = os.getenv("LOG_ROTATE_DAYS")] and its
    conversion. [int s] is [None] where Python's [int(s)] raises
    [ValueError]. *)
Definition convert_rotate_days (int : str -> option Z) (env : option str)
  : rotate_days_value :=
  match env with
  | None => RdNone
  | Some [] => RdEmpty
  | Some s =>
      match int s with
      | Some n => RdInt n
      | None => RdNone
      end
  end.

(** A parser that agrees with [int] on an optional sign followed by ASCII
    digits, and rejects every other string. *)
Fixpoint decimal_digits (acc : Z) (s : str) : option Z :=
  match s with
  | [] => Some acc
  | c :: s' =>
      if Re.in_range 48%N 57%N c
      then decimal_digits (10 * acc + (Z.of_N c - 48)) s'
      else None
  end.

Definition decimal_literal (s : str) : option Z :=
  match s with
  | [] => None
  | c :: s' =>
      if (c =? 45)%N then
        match s' with [] => None | _ => Z.opp <$> decimal_digits 0 s' end
      else if (c =? 43)%N then
        match s' with [] => None | _ => decimal_digits 0 s' end
      else decimal_digits 0 s
  end.

Definition int_value (v : rotate_days_value) : Z :=
  match v with RdInt n => n | _ => 0 end.

Definition create_log_handler (log_path : str) (rotate_days : rotate_days_value)
  : M unit :=
  try_except
    (if truthy rotate_days then
       print (OutUsingTimed (int_value rotate_days));;
       TimedRotatingFileHandler_init (int_value rotate_days)
     else
       print OutUsingRotating;;
       RotatingFileHandler_init RotatingFileHandlerWithoutShouldRollOver 1;;
       try_except
         (doRollover;;
          print (OutRolledOver log_path))
         (fun err =>
            if is_OSError err then Some (eprint (ErrRollingOver err)) else None))
    (fun err =>
       if is_PermissionError err then
         Some (eprint (ErrPermissionDenied log_path err);; sys_exit 1)
       else if is_OSError err then
         Some (eprint (ErrCannotCreate log_path err);; sys_exit 1)
       else None).

(** *** [subprocess.Popen] *)

Definition set_returncode (rc : option Z) (p : process) : process :=
  {| spawn_error := spawn_error p; alive := alive p; status := status p;
     eof_status := eof_status p; heeds_sigterm := heeds_sigterm p;
     returncode := rc; installed := installed p;
     seen_by_poll := seen_by_poll p |}.

Definition set_dead (s : Z) (p : process) : process :=
  {| spawn_error := spawn_error p; alive := false; status := s;
     eof_status := eof_status p; heeds_sigterm := heeds_sigterm p;
     returncode := returncode p; installed := installed p;
     seen_by_poll := seen_by_poll p |}.

Definition install (sig : Z) (p : process) : process :=
  {| spawn_error := spawn_error p; alive := alive p; status := status p;
     eof_status := eof_status p; heeds_sigterm := heeds_sigterm p;
     returncode := returncode p; installed := sig :: installed p;
     seen_by_poll := seen_by_poll p |}.

Definition Popen (cmd : list string) : M unit :=
  syscall_ (SysSpawn cmd);;
  p ← get child;
  match spawn_error p with
  | Some e => raise e
  | None => mret tt
  end.

(** [Popen.poll]: [waitpid] with [WNOHANG] reaps a child it finds ended; it
    does not block, and may come too early to find a child that has just
    ended. *)
Definition poll : M unit :=
  modify_child (fun p =>
    match returncode p with
    | Some _ => p
    | None =>
        if alive p then p
        else if seen_by_poll p then set_returncode (Some (status p)) p
        else p
    end).

(** What a signal does to a running child; a child ended by signal [n] has
    status [-n]. A signal sent to a child that has ended, reaped or not, does
    nothing. *)
Definition deliver_to_child (sig : Z) (p : process) : process :=
  if negb (alive p) then p
  else if sig =? SIGKILL then set_dead (- SIGKILL) p
  else if (sig =? SIGTERM) && heeds_sigterm p then set_dead (- SIGTERM) p
  else p.

(** [Popen.send_signal]: it polls first, and sends nothing to a child it
    knows to have ended. *)
Definition send_signal (sig : Z) : M unit :=
  poll;;
  p ← get child;
  match returncode p with
  | Some _ => mret tt
  | None => syscall_ (SysKill sig);; modify_child (deliver_to_child sig)
  end.

Definition terminate : M unit := send_signal SIGTERM.
Definition kill : M unit := send_signal SIGKILL.

(** [Popen.wait(timeout=...)]: it returns at once for a child already
    reaped; otherwise it waits, reaps a child that has ended and raises
    [TimeoutExpired] for one that runs on. *)
Definition wait (timeout : Z) : M unit :=
  p ← get child;
  match returncode p with
  | Some _ => mret tt
  | None =>
      syscall_ (SysWait timeout);;
      if alive p then raise TimeoutExpired
      else modify_child (set_returncode (Some (status p)))
  end.

(** *** [stream_logs_to_file] *)

Definition signal_handler (signum : Z) : M unit :=
  print OutReceivedSignal;;
  terminate;;
  try_except (wait 5)
    (fun e => match e with TimeoutExpired => Some kill | _ => None end);;
  close;;
  sys_exit 0.

(** [signal.signal(sig, signal_handler)] *)
Definition signal_signal (sig : Z) : M unit := modify_child (install sig).

(** A signal reaches the writer: the installed handler runs; without one,
    SIGINT raises [KeyboardInterrupt] and any other signal ends the
    interpreter. *)
Definition deliver_signal (sig : Z) : M unit :=
  p ← get child;
  if bool_decide (sig ∈ installed p) then signal_handler sig
  else if sig =? SIGINT then raise KeyboardInterrupt
  else raise (ProcessKilled sig).

(** The end of the child's output. *)
Definition at_eof (p : process) : process :=
  match eof_status p with
  | Some s => if alive p then set_dead s p else p
  | None => p
  end.

(** [for line in process.stdout: ...], driven by what the producer does. *)
Fixpoint read_loop (evs : list pevent) : M unit :=
  match evs with
  | [] => modify_child at_eof
  | Line t raw :: evs' =>
      modify_os (set_now t);;
      let clean_line := strip_ansi_codes (rstrip_LF raw) in
      logger_info clean_line;;
      read_loop evs'
  | Signal sig :: evs' =>
      deliver_signal sig;;
      read_loop evs'
  | ReadRaises e :: _ => raise e
  end.

(** The [finally] clause of [stream_logs_to_file]. *)
Definition cleanup : M unit :=
  terminate;;
  try_except (wait 5)
    (fun e => match e with TimeoutExpired => Some kill | _ => None end);;
  close.

(** The part of [stream_logs_to_file] before its [try]: the command is
    built, the child is started and the signal handlers are installed. *)
Definition start_capture (verbose : bool) : M unit :=
  let cmd := ["ha"; "core"; "logs"; "--follow"]%string
             ++ (if verbose then ["--verbose"%string] else []) in
  print (OutStarting cmd);;
  Popen cmd;;
  signal_signal SIGTERM;;
  signal_signal SIGINT.

Definition stream_logs_to_file (verbose : bool) (evs : list pevent) : M Z :=
  start_capture verbose;;
  returned ← try_finally
    (try_except
       (read_loop evs;; mret None)
       (fun e =>
          match e with
          | KeyboardInterrupt => Some (print OutShuttingDown;; mret None)
          | _ =>
              if is_Exception e
              then Some (eprint (ErrStreaming e);; mret (Some 1))
              else None
          end))
    cleanup;
  match returned with
  | Some code => mret code
  | None =>
      p ← get child;
      match returncode p with
      | Some rc =>
          if negb (rc =? 0) && (0 <? rc)
          then eprint (ErrExitedWithCode rc);; mret 1
          else mret 0
      | None => mret 0
      end
  end.

Definition main (LOG_FILE : str) (LOG_ROTATE_DAYS : rotate_days_value)
    (VERBOSE : bool) (evs : list pevent) : M Z :=
  print OutRule;;
  print OutTitle;;
  print OutRule;;
  print (OutLogFile LOG_FILE);;
  print (OutRotation LOG_ROTATE_DAYS);;
  print (OutVerbose VERBOSE);;
  print OutRule;;
  syscall_ SysMkdir;;
  create_log_handler LOG_FILE LOG_ROTATE_DAYS;;
  e ← os_path_exists Base;
  (if e : bool then
     try_except
       (size ← os_path_getsize Base;
        if 100 * (1024 * 1024) <? size then eprint (WarnLogFileSize size)
        else mret tt)
       (fun err => if is_OSError err then Some (mret tt) else None)
   else mret tt);;
  stream_logs_to_file VERBOSE evs.

(** The exit status of the interpreter running [sys.exit(main())]. *)
Definition exit_status (r : result Z) : Z :=
  match r with
  | Ok code => code
  | Raise (SystemExit code) => code
  | Raise (ProcessKilled sig) => 128 + sig
  | Raise _ => 1
  end.

(** ** Initial states and reading the log back *)

Definition blank_handler : handler :=
  Handler RotatingFileHandlerWithoutShouldRollOver 0 false 0.

(** A child that runs until its output ends, then exits with [s]. *)
Definition producer (s : Z) (heeds : bool) : process :=
  {| spawn_error := None; alive := true; status := 0; eof_status := Some s;
     heeds_sigterm := heeds; returncode := None; installed := [];
     seen_by_poll := false |}.

Definition boot (w : world) (p : process) : machine :=
  {| os := w; self := blank_handler; child := p |}.

(** A directory, writable or not, holding the given files at time [t]. *)
Definition disk (fs : gmap name file) (dw : bool) (t : Z) : world :=
  {| files := fs; dir_writable := dw; now := t;
     stdout := []; stderr := []; trace := []; tz := UTC |}.

(** The text of a file from its lines, each with its line feed. *)
Definition unlines (ls : list str) : str :=
  concat (map (fun l => l ++ [LF]) ls).

(** The lines of a text, split at line feeds. *)
Fixpoint read_lines_from (cur : str) (s : str) : list str :=
  match s with
  | [] => match cur with [] => [] | _ => [cur] end
  | c :: s' =>
      if (c =? LF)%N then cur :: read_lines_from [] s'
      else read_lines_from (cur ++ [c]) s'
  end.

Definition read_lines (s : str) : list str := read_lines_from [] s.

Definition file_content (w : world) (n : name) : str :=
  match files w !! n with Some f => content f | None => [] end.

(** The days of the dated backups on disk, oldest first. *)
Definition backup_days (w : world) : list Z :=
  merge_sort Z.le (omap dated_day (map_to_list (files w)).*1).

(** Reading the log back: the dated backups, oldest first, then the active
    file. *)
Definition read_back (w : world) : list str :=
  read_lines
    (concat (map (fun d => file_content w (Dated d)) (backup_days w))
     ++ file_content w Base).

(** May the active file be opened for appending: it is writable, or it is
    absent from a directory that is. *)
Definition can_open (w : world) : bool :=
  match files w !! Base with
  | Some f => writable f
  | None => dir_writable w
  end.

Definition log_path : str := of_string "/config/home-assistant.log".

(** An empty, writable directory at time 1000. *)
Definition empty_dir : machine :=
  boot (disk ∅ true 1000) (producer 0 true).

(** A read-only directory that holds a writable log. *)
Definition locked_dir : machine :=
  boot (disk {[Base := File (of_string "old") 500 true]} false 1000)
       (producer 0 true).

(** A call that neither inspects nor moves a file. *)
Definition quiet (c : syscall) : bool :=
  negb (is_check c) && negb (is_rotation c).

(** Lines arriving at given times, and what the loop hands to the logger for
    them. *)
Definition lines_at (sched : list (Z * str)) : list pevent :=
  map (fun x => Line x.1 x.2) sched.

Definition cleaned (sched : list (Z * str)) : list str :=
  map (fun x => strip_ansi_codes (rstrip_LF x.2)) sched.

(** The body of the read loop run over the lines of [sched]. *)
Fixpoint emit_lines (sched : list (Z * str)) : M unit :=
  match sched with
  | [] => mret tt
  | (t, raw) :: sched' =>
      modify_os (set_now t);;
      logger_info (strip_ansi_codes (rstrip_LF raw));;
      emit_lines sched'
  end.

(** A computation that leaves the child alone and raises nothing but
    instances of [Exception]. *)
Definition os_safe {A} (c : M A) : Prop :=
  forall m, child (c m).2 = child m /\
            forall e, (c m).1 = Raise e -> is_Exception e = true.

(** ** The two rotation modes, as seen from outside *)

(** [create_log_handler] took the single-backup branch: it announces the
    rotating handler and behaves as it does for an unset variable; the
    handler it returns is the subclass of the program with one backup. *)
Definition selects_single_backup (p : str) (v : rotate_days_value) (m : machine)
  : Prop :=
  truthy v = false /\
  create_log_handler p v m = create_log_handler p RdNone m /\
  let '(r, m') := create_log_handler p v m in
  (exists l, stdout (os m') = stdout (os m) ++ OutUsingRotating :: l) /\
  (r = Ok tt ->
   h_class (self m') = RotatingFileHandlerWithoutShouldRollOver /\
   backupCount (self m') = 1).

(** [create_log_handler] took the timed branch with retention count [n]. *)
Definition selects_timed_daily (n : Z) (p : str) (v : rotate_days_value)
    (m : machine) : Prop :=
  v = RdInt n /\
  let '(r, m') := create_log_handler p v m in
  stdout (os m') = stdout (os m) ++ [OutUsingTimed n] /\
  (r = Ok tt ->
   h_class (self m') = TimedRotatingFileHandler /\
   backupCount (self m') = n).

(** A writable directory that holds a writable log, last written at time
    500. *)
Definition dir_with_log : machine :=
  boot (disk {[Base := File (of_string "old") 500 true]} true 1000)
       (producer 0 true).

(** A timed handler, its stream open, whose rollover time has passed, in a
    read-only directory that holds a writable log. *)
Definition stale_timed_locked : machine :=
  {| os := disk {[Base := File (of_string "old") 500 true]} false 90000;
     self := Handler TimedRotatingFileHandler 3 true 86400;
     child := producer 0 true |}.

(** A child that closes its output, keeps running and ignores SIGTERM. *)
Definition lingering_producer : process :=
  {| spawn_error := None; alive := true; status := 0; eof_status := None;
     heeds_sigterm := false; returncode := None; installed := [];
     seen_by_poll := false |}.

(** ** Timed rotation: what is on disk *)

(** The directory after deleting the entries [l]. *)
Fixpoint delete_all (l : list name) (fs : gmap name file) : gmap name file :=
  match l with
  | [] => fs
  | a :: l' => delete_all l' (delete a fs)
  end.

(** What a retention count of [n] keeps of the backups [h], oldest first:
    the newest [n], or all of them when [n] is not positive. *)
Definition retained {A} (n : Z) (h : list A) : list A :=
  if 0 <? n then drop (length h - Z.to_nat n) h else h.

(** The dated backups on disk are those of [D], a list of days with the
    text of each day's file. *)
Definition dated_contents (fs : gmap name file) (D : list (Z * str)) : Prop :=
  forall x, content <$> (fs !! Dated x) = (list_to_map D : gmap Z str) !! x.


(** The zone [z] keeps the offset [off] from UTC at all times and has no
    daylight saving. *)
Definition fixed_zone (off : Z) (z : timezone) : Prop :=
  forall t, utcoff z t = off /\ isdst z t = false.

(** The local calendar day of a time stamp where the offset is [off]. *)
Definition local_day (off t : Z) : Z := day_of (t + off).

(** The steady state of the timed handler in a zone of fixed offset [off]:
    as [timed_ready], with days and midnights those of local time. *)
Definition timed_steady (off N : Z) (D : list (Z * str)) (d : Z) (c : str)
    (m : machine) : Prop :=
  fixed_zone off (tz (os m)) /\
  h_class (self m) = TimedRotatingFileHandler /\
  backupCount (self m) = N /\
  stream (self m) = true /\
  rolloverAt (self m) = (d + 1) * _MIDNIGHT - off /\
  dir_writable (os m) = true /\
  (exists mt, files (os m) !! Base = Some (File c mt true) /\
              local_day off mt = d) /\
  StronglySorted Z.lt D.*1 /\
  Forall (fun x => x < d) D.*1 /\
  dated_contents (files (os m)) D.

(** The same machine in another time zone. *)
Definition set_tz (z : timezone) (w : world) : world :=
  {| files := files w; dir_writable := dir_writable w; now := now w;
     stdout := stdout w; stderr := stderr w; trace := trace w; tz := z |}.

Definition in_zone (z : timezone) (m : machine) : machine :=
  set_os (set_tz z (os m)) m.

(** Central European Time, as in winter: one hour east of UTC. *)
Definition CET : timezone := fixed_offset 3600.


(** The same local state one hour east of UTC: the local day 1 runs from
    82800 to 169200. *)
Definition timed_second_day_cet : machine :=
  {| os := set_tz CET
             (disk (<[Base := File (of_string "today") 90000 true]>
                      {[Dated 0 := File (of_string "yesterday") 500 true]})
                   true 90000);
     self := Handler TimedRotatingFileHandler 1 true 169200;
     child := producer 0 true |}.

(** * Properties *)

(** Running a computation: unfold the program and the library down to the
    state it returns. *)
Ltac mrun :=
  cbv beta iota zeta delta
    [mbind M_bind mret M_ret get modify modify_os modify_self modify_child raise
     syscall_ print eprint sys_exit try_except try_finally
     set_os set_self set_child set_files set_now add_stdout add_stderr add_trace
     set_stream set_rolloverAt set_backupCount
     os self child files dir_writable now stdout stderr trace tz
     h_class backupCount stream rolloverAt content mtime writable
     file_exists os_path_exists os_path_isfile os_stat_mtime os_path_getsize
     os_remove os_rename os_listdir builtin_open_append stream_write time_time
     _open handleError FileHandler_init RotatingFileHandler_init
     TimedRotatingFileHandler_init shouldRollover rotate close_stream
     RotatingFileHandler_doRollover
     TimedRotatingFileHandler_doRollover doRollover StreamHandler_emit
     FileHandler_emit emit close logger_info format terminator
     is_OSError is_PermissionError is_Exception
     create_log_handler truthy int_value file_content can_open
     spawn_error alive status eof_status heeds_sigterm returncode installed
     seen_by_poll
     set_returncode set_dead install Popen poll deliver_to_child send_signal
     terminate kill wait signal_handler signal_signal deliver_signal at_eof
     cleanup start_capture stream_logs_to_file main exit_status
     fst snd];
  try change (0 <? 1) with true;
  try change (shift_backups (Z.to_nat (1 - 1))) with (mret tt : M unit);
  cbv beta iota zeta delta [mbind M_bind mret M_ret].

(** Split on the next test the computation makes. *)
Ltac mcase :=
  match goal with
  | |- context [match ?fs !! ?n with _ => _ end] =>
      first [ match goal with H : fs !! n = _ |- _ => rewrite H end
            | rewrite (lookup_insert_eq (M:=gmap name))
            | rewrite (lookup_insert_ne (M:=gmap name)) by discriminate
            | rewrite (lookup_delete_eq (M:=gmap name))
            | rewrite (lookup_delete_ne (M:=gmap name)) by discriminate
            | let E := fresh "E" in destruct (fs !! n) eqn:E ]
  | |- context [if ?b then _ else _] =>
      let E := fresh "E" in destruct b eqn:E
  end; mrun.


(** ** The ANSI filter *)

Section AnsiFacts.

Local Open Scope nat_scope.

Lemma cc_mem_param c :
  Re.cc_mem (Re.Ranges [(48, 57); (59, 59)]%N) c = is_param c.
Proof.
  unfold is_param, Re.in_range. simpl. unfold Re.in_range. simpl.
  rewrite orb_false_r. f_equal.
  destruct (N.eqb_spec c 59) as [->|Hne]; [reflexivity|].
  apply andb_false_iff.
  destruct (N.leb_spec 59 c); destruct (N.leb_spec c 59); auto; lia.
Qed.

Lemma cc_mem_letter c :
  Re.cc_mem (Re.Ranges [(97, 122); (65, 90)]%N) c = is_letter c.
Proof. unfold is_letter. simpl. now rewrite orb_false_r. Qed.

Lemma param_not_letter c : is_param c = true -> is_letter c = false.
Proof.
  unfold is_param, is_letter, Re.in_range. intros H.
  repeat match goal with
         | |- context [(?a <=? ?b)%N] => destruct (N.leb_spec a b)
         | H : context [(?a <=? ?b)%N] |- _ => destruct (N.leb_spec a b)
         | H : context [(?a =? ?b)%N] |- _ => destruct (N.eqb_spec a b)
         end; simpl in *; try reflexivity; try discriminate; lia.
Qed.

Lemma letter_not_ESC c : is_letter c = true -> c <> ESC.
Proof. intros H ->. discriminate H. Qed.

Lemma param_not_ESC c : is_param c = true -> c <> ESC.
Proof. intros H ->. discriminate H. Qed.

Lemma match_at_letter s :
  Re.match_at [Re.One (Re.Ranges [(97, 122); (65, 90)]%N)] s =
  match s with
  | c :: _ => if is_letter c then Some 1 else None
  | [] => None
  end.
Proof.
  destruct s as [|c s]; [reflexivity|].
  cbn [Re.match_at]. rewrite cc_mem_letter. now destruct (is_letter c).
Qed.

Lemma match_at_params_cons c s :
  Re.match_at params_then_letter (c :: s) =
  if is_param c then
    match Re.match_at params_then_letter s with
    | Some n => Some (S n)
    | None => Re.match_at [Re.One (Re.Ranges [(97, 122); (65, 90)]%N)] (c :: s)
    end
  else Re.match_at [Re.One (Re.Ranges [(97, 122); (65, 90)]%N)] (c :: s).
Proof.
  unfold params_then_letter. cbn [Re.match_at].
  rewrite cc_mem_param. reflexivity.
Qed.

Lemma match_at_params_intro ps c s :
  Forall (fun p => is_param p = true) ps -> is_letter c = true ->
  Re.match_at params_then_letter (ps ++ c :: s) = Some (S (length ps)).
Proof.
  intros Hps Hc. induction Hps as [|p ps Hp Hps IH].
  - cbn [app length]. rewrite match_at_params_cons, match_at_letter, Hc.
    destruct (is_param c) eqn:E; [|reflexivity].
    apply param_not_letter in E. congruence.
  - cbn [app length]. rewrite match_at_params_cons, Hp, IH. reflexivity.
Qed.

Lemma match_at_params_elim s n :
  Re.match_at params_then_letter s = Some n ->
  exists ps c s', s = ps ++ c :: s' /\
    Forall (fun p => is_param p = true) ps /\ is_letter c = true /\
    n = S (length ps).
Proof.
  revert n. induction s as [|c s IH]; intros n H.
  - discriminate H.
  - rewrite match_at_params_cons, match_at_letter in H.
    destruct (is_param c) eqn:Ep.
    + destruct (Re.match_at params_then_letter s) as [m|] eqn:Em.
      * destruct (IH m eq_refl) as (ps & c' & s' & -> & Hps & Hc & ->).
        exists (c :: ps), c', s'. inversion H. repeat split; auto.
      * rewrite (param_not_letter _ Ep) in H. discriminate H.
    + destruct (is_letter c) eqn:El; [|discriminate H].
      exists [], c, s. inversion H. repeat split; auto.
Qed.

Lemma match_at_ansi s :
  Re.match_at ansi_escape_pattern s =
  match s with
  | a :: b :: rest =>
      if ((a =? ESC)%N && (b =? LBRACKET)%N)%bool
      then S <$> (S <$> Re.match_at params_then_letter rest)
      else None
  | _ => None
  end.
Proof.
  unfold ansi_escape_pattern.
  destruct s as [|a [|b rest]]; cbn [Re.match_at Re.cc_mem].
  - reflexivity.
  - rewrite N.eqb_sym. now destruct (a =? ESC)%N.
  - rewrite (N.eqb_sym ESC a), (N.eqb_sym LBRACKET b).
    destruct (a =? ESC)%N; [|reflexivity].
    destruct (b =? LBRACKET)%N; reflexivity.
Qed.

Lemma match_at_escape e s :
  escape_seq e -> Re.match_at ansi_escape_pattern (e ++ s) = Some (length e).
Proof.
  intros [ps c Hps Hc]. rewrite match_at_ansi. cbn [app].
  rewrite !N.eqb_refl. cbn [andb].
  rewrite <- app_assoc. cbn [app].
  rewrite (match_at_params_intro ps c s Hps Hc).
  cbn. rewrite length_app. cbn. f_equal. lia.
Qed.

Lemma match_at_Some s n :
  Re.match_at ansi_escape_pattern s = Some n ->
  exists e s', s = e ++ s' /\ escape_seq e /\ n = length e.
Proof.
  rewrite match_at_ansi. destruct s as [|a [|b rest]]; try discriminate.
  destruct (N.eqb_spec a ESC) as [->|]; [|discriminate].
  destruct (N.eqb_spec b LBRACKET) as [->|]; [|discriminate].
  cbn [andb]. destruct (Re.match_at params_then_letter rest) as [m|] eqn:E;
    [|discriminate].
  destruct (match_at_params_elim _ _ E) as (ps & c & s' & -> & Hps & Hc & ->).
  intros H. exists (ESC :: LBRACKET :: ps ++ [c]), s'. split; [|split].
  - cbn [app]. now rewrite <- app_assoc.
  - now constructor.
  - cbn in H. inversion H. cbn. rewrite length_app. cbn. lia.
Qed.

Lemma match_at_None s :
  Re.match_at ansi_escape_pattern s = None ->
  forall e s', escape_seq e -> s <> e ++ s'.
Proof.
  intros H e s' He ->. rewrite (match_at_escape e s' He) in H. discriminate.
Qed.

Lemma sub_from_skip r k s :
  Re.sub_from r k s = Re.sub_from r 0 (drop k s).
Proof.
  revert k. induction s as [|c s IH]; intros [|k]; try reflexivity.
  cbn [Re.sub_from drop]. apply IH.
Qed.

Lemma strip_escape e s :
  escape_seq e -> strip_ansi_codes (e ++ s) = strip_ansi_codes s.
Proof.
  intros He. pose proof (match_at_escape e s He) as Hm.
  unfold strip_ansi_codes, Re.sub_empty.
  destruct He as [ps c Hps Hc]. cbn [app] in *.
  cbn [Re.sub_from]. rewrite Hm. cbn [length].
  rewrite sub_from_skip. f_equal.
  change (LBRACKET :: (ps ++ [c]) ++ s) with ((LBRACKET :: ps ++ [c]) ++ s).
  apply drop_app_length.
Qed.

Lemma strip_keep c s :
  (forall e s', escape_seq e -> c :: s <> e ++ s') ->
  strip_ansi_codes (c :: s) = c :: strip_ansi_codes s.
Proof.
  intros H. unfold strip_ansi_codes, Re.sub_empty. cbn [Re.sub_from].
  destruct (Re.match_at ansi_escape_pattern (c :: s)) as [[|n]|] eqn:E;
    try reflexivity.
  destruct (match_at_Some _ _ E) as (e & s' & Heq & He & _).
  exfalso. exact (H e s' He Heq).
Qed.

Lemma removed_strip s : removed s (strip_ansi_codes s).
Proof.
  remember (length s) as n eqn:Hn. revert s Hn.
  induction n as [n IH] using lt_wf_ind. intros s ->.
  destruct s as [|c s]; [constructor|].
  destruct (Re.match_at ansi_escape_pattern (c :: s)) as [m|] eqn:E.
  - destruct (match_at_Some _ _ E) as (e & s' & Heq & He & _).
    rewrite Heq, (strip_escape e s' He). constructor; [exact He|].
    apply (IH (length s')); [|reflexivity].
    rewrite Heq, length_app. destruct He. cbn. lia.
  - pose proof (match_at_None _ E) as Hno.
    rewrite (strip_keep c s Hno). constructor; [exact Hno|].
    apply (IH (length s)); [cbn; lia | reflexivity].
Qed.

Lemma removed_functional s t : removed s t -> t = strip_ansi_codes s.
Proof.
  induction 1 as [|e s t He _ IH|c s t Hno _ IH].
  - reflexivity.
  - now rewrite (strip_escape e s He).
  - now rewrite (strip_keep c s Hno), IH.
Qed.

Lemma strip_no_ESC s : ESC ∉ s -> strip_ansi_codes s = s.
Proof.
  induction s as [|c s IH]; intros H; [reflexivity|].
  rewrite strip_keep.
  - f_equal. apply IH. intros Hin. apply H. now right.
  - intros e s' [ps c' _ _] Heq. cbn in Heq. inversion Heq; subst.
    apply H. left.
Qed.

Lemma escape_seq_cons e : escape_seq e -> exists e', e = ESC :: e'.
Proof. intros [ps c _ _]. eauto. Qed.

Lemma strip_interleaved_no_ESC s : interleaved s -> ESC ∉ strip_ansi_codes s.
Proof.
  induction 1 as [|c s Hc _ IH|e s He _ IH].
  - cbn. apply not_elem_of_nil.
  - rewrite strip_keep.
    + intros Hin. apply elem_of_cons in Hin as [Heq|Hin]; [now symmetry in Heq|auto].
    + intros e s' He Heq. destruct (escape_seq_cons e He) as [e' ->].
      cbn in Heq. inversion Heq; subst. now apply Hc.
  - now rewrite (strip_escape e s He).
Qed.

End AnsiFacts.

(** C2: [strip_ansi_codes] is a total function whose result is the input with
    exactly the escape sequences (ESC, '[', digits and semicolons, one ASCII
    letter) removed and every other code point, an unterminated ESC '[' prefix
    included, kept in order; the result is the only string so related to the
    input. *)
Theorem strip_ansi_codes_removes_exactly (s : str) :
  removed s (strip_ansi_codes s) /\
  (forall t, removed s t <-> t = strip_ansi_codes s).
Proof.
  split; [apply removed_strip|].
  intros t. split; [apply removed_functional|].
  intros ->. apply removed_strip.
Qed.

(** C9, as the claim states it, fails: one pass over
    ESC '[' '3' ESC '[' '0' 'm' 'm' leaves ESC '[' '3' 'm', which a second
    pass removes. *)
Lemma strip_ansi_codes_not_idempotent :
  strip_ansi_codes spliced = ESC :: of_string "[3m" /\
  strip_ansi_codes (strip_ansi_codes spliced) = [] /\
  strip_ansi_codes (strip_ansi_codes spliced) <> strip_ansi_codes spliced.
Proof. repeat split. discriminate. Qed.

(** C9, amended: on plain text free of ESC interleaved with escape sequences
    the filter is idempotent: filtering the filtered string changes
    nothing. *)
Theorem strip_ansi_codes_idempotent_interleaved (s : str) :
  interleaved s ->
  strip_ansi_codes (strip_ansi_codes s) = strip_ansi_codes s.
Proof.
  intros H. apply strip_no_ESC, strip_interleaved_no_ESC, H.
Qed.

Lemma strip_ansi_codes_idempotent_interleaved_witness :
  let s := ESC :: of_string "[31mERROR" ++ ESC :: of_string "[0m: boom" in
  interleaved s /\
  strip_ansi_codes (strip_ansi_codes s) = strip_ansi_codes s.
Proof.
  assert (H : interleaved
                (ESC :: of_string "[31mERROR" ++ ESC :: of_string "[0m: boom")).
  { change (interleaved
              ((ESC :: LBRACKET :: [51; 49]%N ++ [109%N]) ++
               of_string "ERROR" ++
               (ESC :: LBRACKET :: [48%N] ++ [109%N]) ++ of_string ": boom")).
    apply interleaved_seq.
    { constructor; [repeat constructor | reflexivity]. }
    repeat (apply interleaved_plain; [discriminate|]).
    apply interleaved_seq.
    { constructor; [repeat constructor | reflexivity]. }
    repeat (apply interleaved_plain; [discriminate|]).
    apply interleaved_nil. }
  split; [exact H|].
  exact (strip_ansi_codes_idempotent_interleaved _ H).
Defined.

(** ** Choosing the rotation mode *)

Lemma create_log_handler_falsy p v m :
  truthy v = false -> selects_single_backup p v m.
Proof.
  intros Hv. split; [exact Hv|].
  assert (Heq : create_log_handler p v m = create_log_handler p RdNone m).
  { unfold create_log_handler. rewrite Hv. reflexivity. }
  split; [exact Heq|]. rewrite Heq. clear Heq Hv v.
  destruct m as [[fs dw t out err tr zn] h c].
  mrun. repeat mcase;
    (split;
     [eexists; rewrite <- ?app_assoc; reflexivity
     |(intros _; split; reflexivity) || intros [=]]).
Qed.

Lemma create_log_handler_int p n m :
  n <> 0 -> selects_timed_daily n p (RdInt n) m.
Proof.
  intros Hn. split; [reflexivity|].
  destruct m as [[fs dw t out err tr zn] h c].
  mrun. destruct (Z.eqb_spec n 0) as [|_]; [contradiction|].
  cbv beta iota delta [negb]. mrun. repeat mcase;
    (split; [reflexivity | (intros _; split; reflexivity) || intros [=]]).
Qed.

(** C10: an unset or empty [LOG_ROTATE_DAYS], one that [int] rejects and one
    that parses to 0 all select the single-backup mode, exactly as the unset
    variable does and with nothing raised or reported by the conversion;
    every other integer, negative ones included, selects the timed mode and
    is passed unchanged as its retention count. *)
Theorem log_rotate_days_selects_mode
    (int : str -> option Z) (env : option str) (p : str) (m : machine) :
  let v := convert_rotate_days int env in
  match env with
  | None | Some [] => selects_single_backup p v m
  | Some s =>
      match int s with
      | None => selects_single_backup p v m
      | Some n =>
          if n =? 0 then selects_single_backup p v m
          else selects_timed_daily n p v m
      end
  end.
Proof.
  destruct env as [[|c s]|]; cbn [convert_rotate_days];
    try (apply create_log_handler_falsy; reflexivity).
  destruct (int (c :: s)) as [n|];
    [|apply create_log_handler_falsy; reflexivity].
  destruct (Z.eqb_spec n 0) as [->|Hn].
  - apply create_log_handler_falsy; reflexivity.
  - apply create_log_handler_int, Hn.
Qed.

(** A negative count, read from the environment, reaches the handler. *)
Lemma log_rotate_days_selects_mode_witness :
  selects_timed_daily (-3) (of_string "/config/home-assistant.log")
    (convert_rotate_days decimal_literal (Some (of_string "-3")))
    (boot (disk ∅ true 0) (producer 0 true)).
Proof.
  exact (log_rotate_days_selects_mode decimal_literal (Some (of_string "-3"))
           (of_string "/config/home-assistant.log")
           (boot (disk ∅ true 0) (producer 0 true))).
Defined.

(** ** Starting in single-backup mode *)

(** C5, as the claim states it, fails: in an empty directory the constructor
    creates the active file and the startup rollover renames it, which leaves
    an empty backup behind. *)
Lemma single_backup_missing_file_makes_backup :
  files (os empty_dir) !! Base = None /\
  let '(r, m') := create_log_handler log_path RdNone empty_dir in
  r = Ok tt /\
  files (os m') !! Numbered 1 = Some (File [] 1000 true) /\
  files (os m') !! Base = Some (File [] 1000 true) /\
  trace (os m') =
    [SysOpen Base; SysClose; SysExists (Numbered 1); SysExists Base;
     SysRename Base (Numbered 1); SysOpen Base].
Proof. vm_compute. repeat split. Qed.

(** C5, amended: when the log does not exist and its directory is writable,
    [create_log_handler] in single-backup mode returns the handler and
    reports nothing on standard error; the rollover renames the active file
    the constructor has just created, so an empty backup [<path>.1] and a new
    empty active file exist afterwards, and the handler accepts lines. *)
Theorem single_backup_missing_file_startup (p : str) (m : machine) :
  files (os m) !! Base = None -> dir_writable (os m) = true ->
  let '(r, m') := create_log_handler p RdNone m in
  r = Ok tt /\ stderr (os m') = stderr (os m) /\
  files (os m') !! Base = Some (File [] (now (os m)) true) /\
  files (os m') !! Numbered 1 = Some (File [] (now (os m)) true) /\
  stream (self m') = true /\
  forall line,
    let '(r', m'') := logger_info line m' in
    r' = Ok tt /\ file_content (os m'') Base = line ++ [LF].
Proof.
  destruct m as [[fs dw t out err tr zn] h c].
  cbn [os files dir_writable now stderr].
  intros HB ->. mrun. rewrite HB. mrun.
  repeat mcase; (split; [reflexivity|]); (split; [reflexivity|]);
    (split; [by simplify_map_eq|]); (split; [by simplify_map_eq|]);
    (split; [reflexivity|]); intros line; mrun; repeat mcase;
    (split; [reflexivity|]); by simplify_map_eq.
Qed.

Lemma single_backup_missing_file_startup_witness :
  let '(r, m') := create_log_handler log_path RdNone empty_dir in
  r = Ok tt /\ stderr (os m') = stderr (os empty_dir) /\
  files (os m') !! Base = Some (File [] (now (os empty_dir)) true) /\
  files (os m') !! Numbered 1 = Some (File [] (now (os empty_dir)) true) /\
  stream (self m') = true /\
  forall line,
    let '(r', m'') := logger_info line m' in
    r' = Ok tt /\ file_content (os m'') Base = line ++ [LF].
Proof.
  apply (single_backup_missing_file_startup log_path empty_dir); reflexivity.
Defined.

(** C6, as the claim states it, fails: with a writable log in a read-only
    directory the startup rollover is refused with [PermissionError], which
    is reported as a warning; the program goes on, streams the line and ends
    with status 0. *)
Lemma rollover_permission_denied_not_fatal :
  let '(r, m') :=
    main log_path RdNone false [Line 1000 (of_string "hi" ++ [LF])] locked_dir in
  r = Ok 0 /\ exit_status r = 0 /\
  stderr (os m') = [ErrRollingOver PermissionError] /\
  In (SysRename Base (Numbered 1)) (trace (os m')) /\
  file_content (os m') Base = of_string "old" ++ of_string "hi" ++ [LF].
Proof. vm_compute. repeat split. auto 20. Qed.

(** C6, amended: in single-backup mode startup is fatal exactly when the
    constructor cannot open the active file: then nothing but the open is
    attempted and the program ends with status 1 before the producer is
    started. When the file can be opened the handler is always returned; a
    rollover refused for lack of permission is reported as a soft warning. *)
Theorem startup_rollover_errors_are_soft (p : str) (m : machine) :
  let '(r, m') := create_log_handler p RdNone m in
  if can_open (os m) then
    r = Ok tt /\
    stderr (os m') =
      stderr (os m) ++
      (if dir_writable (os m) then [] else [ErrRollingOver PermissionError])
  else
    r = Raise (SystemExit 1) /\
    stderr (os m') = stderr (os m) ++ [ErrPermissionDenied p PermissionError] /\
    trace (os m') = trace (os m) ++ [SysOpen Base] /\
    forall verbose evs,
      let '(r2, m2) := main p RdNone verbose evs m in
      exit_status r2 = 1 /\
      trace (os m2) = trace (os m) ++ [SysMkdir; SysOpen Base].
Proof.
  destruct m as [[fs dw t out err tr zn] h c].
  mrun. repeat mcase; rewrite ?app_nil_r; repeat split;
    try discriminate; intros; mrun;
    repeat match goal with H : _ = _ |- _ => rewrite H; mrun end;
    rewrite <- ?app_assoc; repeat split.
Qed.

(** ** Emitting in single-backup mode *)

Lemma run_bind_ok {A B} (c : M A) (k : A -> M B) m a m' :
  c m = (Ok a, m') -> (c ≫= k) m = k a m'.
Proof. intros H. cbv [mbind M_bind]. now rewrite H. Qed.

Lemma alter_known (g : file -> file) (n : name) (fs : gmap name file) f :
  fs !! n = Some f -> alter g n fs = <[n := g f]> fs.
Proof.
  intros H. apply map_eq. intros i.
  destruct (decide (i = n)) as [->|]; by simplify_map_eq.
Qed.

Lemma shouldRollover_single rec m :
  h_class (self m) = RotatingFileHandlerWithoutShouldRollOver ->
  shouldRollover rec m = (Ok false, m).
Proof.
  destruct m as [w [cls bc st ra] c]. cbn [self h_class]. intros ->.
  reflexivity.
Qed.

Lemma emit_never_rolls rec m f :
  h_class (self m) = RotatingFileHandlerWithoutShouldRollOver ->
  files (os m) !! Base = Some f -> writable f = true ->
  exists m' l,
    emit rec m = (Ok tt, m') /\
    h_class (self m') = RotatingFileHandlerWithoutShouldRollOver /\
    trace (os m') = trace (os m) ++ l /\ forallb quiet l = true /\
    files (os m') =
      <[Base := File (content f ++ rec ++ [LF]) (now (os m)) true]> (files (os m)) /\
    stdout (os m') = stdout (os m) /\ stderr (os m') = stderr (os m).
Proof.
  destruct m as [[fs dw t out err tr zn] [cls bc st ra] c].
  destruct f as [ct mt wr].
  cbn [os self files h_class writable content now trace stdout stderr].
  intros -> HB ->. mrun. destruct st; mrun; repeat mcase.
  - eexists _, [_]. repeat split. by rewrite (alter_known _ _ _ _ HB).
  - eexists _, [_; _]. repeat split; [by rewrite <- app_assoc|done|].
    by rewrite (alter_known _ _ _ _ HB).
Qed.

Lemma read_loop_never_rolls sched : forall m f,
  h_class (self m) = RotatingFileHandlerWithoutShouldRollOver ->
  files (os m) !! Base = Some f -> writable f = true ->
  exists m' l f',
    read_loop (lines_at sched) m = (Ok tt, m') /\
    trace (os m') = trace (os m) ++ l /\ forallb quiet l = true /\
    files (os m') !! Base = Some f' /\
    content f' = content f ++ unlines (cleaned sched) /\
    (forall n, n <> Base -> files (os m') !! n = files (os m) !! n) /\
    stderr (os m') = stderr (os m).
Proof.
  induction sched as [|[t raw] sched IH]; intros m f Hc HB Hw.
  - exists (set_child (at_eof (child m)) m), [], f. cbn.
    rewrite !app_nil_r. repeat split; done.
  - cbn [lines_at map read_loop fst snd].
    set (m1 := set_os (set_now t (os m)) m).
    destruct (emit_never_rolls (strip_ansi_codes (rstrip_LF raw)) m1 f)
      as (m2 & l2 & He & Hc2 & Ht2 & Hq2 & Hf2 & _ & He2); try done.
    assert (HB2 : files (os m2) !! Base =
                  Some (File (content f ++ strip_ansi_codes (rstrip_LF raw) ++ [LF])
                             t true)).
    { rewrite Hf2. by simplify_map_eq. }
    destruct (IH m2 _ Hc2 HB2 eq_refl)
      as (m3 & l3 & f3 & Hr & Ht3 & Hq3 & Hf3 & Hct & Hoth & He3).
    exists m3, (l2 ++ l3), f3. repeat split.
    + rewrite (run_bind_ok _ _ m tt m1) by reflexivity.
      unfold logger_info. rewrite (run_bind_ok _ _ _ _ _ He). exact Hr.
    + rewrite Ht3, Ht2. cbn. by rewrite app_assoc.
    + by rewrite forallb_app, Hq2, Hq3.
    + done.
    + rewrite Hct. cbn [content]. unfold cleaned, unlines.
      cbn [map concat fst snd]. by rewrite <- !app_assoc.
    + intros n Hn. rewrite Hoth, Hf2 by done. by simplify_map_eq.
    + by rewrite He3, He2.
Qed.

Lemma create_single_backup_ready p m :
  let '(r, m') := create_log_handler p RdNone m in
  r = Ok tt ->
  h_class (self m') = RotatingFileHandlerWithoutShouldRollOver /\
  exists f, files (os m') !! Base = Some f /\ writable f = true.
Proof.
  destruct m as [[fs dw t out err tr zn] h c].
  mrun. repeat mcase; first [intros [=] | intros _];
    (split; [reflexivity|]); eexists; (split; [by simplify_map_eq|done]).
Qed.

(** C4: once [create_log_handler] has returned the single-backup handler, its
    [shouldRollover] answers [False] whatever the record and the state, and
    streaming any sequence of lines makes no call that checks the existence,
    type, age or size of a file and none that renames or deletes one: every
    cleaned line is appended, with its line feed, to the active file, and no
    other file changes. *)
Theorem single_backup_never_rechecks
    (p : str) (m m1 : machine) (sched : list (Z * str)) :
  create_log_handler p RdNone m = (Ok tt, m1) ->
  (forall rec m', h_class (self m') = h_class (self m1) ->
                  shouldRollover rec m' = (Ok false, m')) /\
  exists m2 l,
    read_loop (lines_at sched) m1 = (Ok tt, m2) /\
    trace (os m2) = trace (os m1) ++ l /\ forallb quiet l = true /\
    file_content (os m2) Base =
      file_content (os m1) Base ++ unlines (cleaned sched) /\
    (forall n, n <> Base -> files (os m2) !! n = files (os m1) !! n).
Proof.
  intros Hc. pose proof (create_single_backup_ready p m) as Hr.
  rewrite Hc in Hr. destruct (Hr eq_refl) as (Hcls & f & HB & Hw).
  split.
  - intros rec m' Hm'. apply shouldRollover_single. congruence.
  - destruct (read_loop_never_rolls sched m1 f Hcls HB Hw)
      as (m2 & l & f2 & Hrun & Ht & Hq & HB2 & Hct & Hoth & _).
    exists m2, l. repeat split; try done.
    unfold file_content. by rewrite HB, HB2.
Qed.

Lemma single_backup_never_rechecks_witness :
  let m1 := (create_log_handler log_path RdNone empty_dir).2 in
  let sched := [(1000, of_string "first" ++ [LF]); (1001, of_string "second" ++ [LF])] in
  create_log_handler log_path RdNone empty_dir = (Ok tt, m1) /\
  exists m2 l,
    read_loop (lines_at sched) m1 = (Ok tt, m2) /\
    trace (os m2) = trace (os m1) ++ l /\ forallb quiet l = true /\
    file_content (os m2) Base =
      file_content (os m1) Base ++ unlines (cleaned sched) /\
    (forall n, n <> Base -> files (os m2) !! n = files (os m1) !! n).
Proof.
  intros m1 sched.
  assert (H : create_log_handler log_path RdNone empty_dir = (Ok tt, m1))
    by (vm_compute; reflexivity).
  split; [exact H|].
  exact (proj2 (single_backup_never_rechecks log_path empty_dir m1 sched H)).
Defined.

(** ** The stream pump *)

Lemma os_safe_ret {A} (a : A) : os_safe (mret a).
Proof. intros m. split; [reflexivity|]. intros e [=]. Qed.

Lemma os_safe_bind {A B} (c : M A) (k : A -> M B) :
  os_safe c -> (forall a, os_safe (k a)) -> os_safe (c ≫= k).
Proof.
  intros Hc Hk m. specialize (Hc m). cbv [mbind M_bind].
  destruct (c m) as [[a|e] m1]; cbn in *.
  - destruct (Hk a m1) as [H1 H2]. destruct Hc as [Hc _].
    split; [congruence|exact H2].
  - destruct Hc as [Hc He]. split; [exact Hc|]. intros e' [= <-]. now apply He.
Qed.

Lemma os_safe_try_except {A} (body : M A) clauses :
  os_safe body -> (forall e k, clauses e = Some k -> os_safe k) ->
  os_safe (try_except body clauses).
Proof.
  intros Hb Hk m. specialize (Hb m). cbv [try_except].
  destruct (body m) as [[a|e] m1]; cbn in *.
  - destruct Hb as [Hb _]. split; [exact Hb|]. intros e [=].
  - destruct Hb as [Hb He]. destruct (clauses e) as [k|] eqn:E; cbn.
    + destruct (Hk e k E m1) as [H1 H2]. split; [congruence|exact H2].
    + split; [exact Hb|]. intros e' [= <-]. now apply He.
Qed.

Lemma os_safe_get {A} (f : machine -> A) : os_safe (get f).
Proof. intros m. split; [reflexivity|]. intros e [=]. Qed.

Lemma os_safe_modify_os f : os_safe (modify_os f).
Proof. intros m. split; [reflexivity|]. intros e [=]. Qed.

Lemma os_safe_modify_self f : os_safe (modify_self f).
Proof. intros m. split; [reflexivity|]. intros e [=]. Qed.

Lemma os_safe_raise {A} e : is_Exception e = true -> os_safe (raise e : M A).
Proof. intros H m. split; [reflexivity|]. now intros e' [= <-]. Qed.

Ltac safe :=
  repeat first
    [ progress intros
    | apply os_safe_ret
    | apply os_safe_get
    | apply os_safe_modify_os
    | apply os_safe_modify_self
    | apply os_safe_raise; reflexivity
    | apply os_safe_bind
    | apply os_safe_try_except
    | assumption
    | match goal with H : forall _, os_safe _ |- _ => apply H end
    | match goal with
      | |- os_safe (if ?b then _ else _) => destruct b
      | |- os_safe (match ?x with _ => _ end) => destruct x
      | H : (if ?b then _ else _) = Some _ |- _ => destruct b; inversion H; subst; clear H
      end ].

Lemma os_safe_emit rec : os_safe (emit rec).
Proof.
  assert (Hrm : forall l, os_safe (remove_all l)).
  { induction l; cbn [remove_all]; unfold os_remove, syscall_; safe. }
  assert (Hsh : forall k, os_safe (shift_backups k)).
  { induction k; cbn [shift_backups];
      unfold os_path_exists, os_remove, os_rename, syscall_; safe. }
  unfold emit, shouldRollover, doRollover, RotatingFileHandler_doRollover,
    TimedRotatingFileHandler_doRollover, FileHandler_emit, StreamHandler_emit,
    getFilesToDelete, rotate, close_stream, _open, builtin_open_append,
    os_listdir, os_path_exists, os_path_isfile, os_remove, os_rename,
    stream_write, time_time, handleError, eprint, syscall_.
  safe.
Qed.

Lemma emit_total rec m :
  exists m', emit rec m = (Ok tt, m') /\ child m' = child m.
Proof.
  destruct (os_safe_emit rec m) as [Hc He].
  destruct (emit rec m) as [[[]|e] m'] eqn:E; cbn in *.
  - eauto.
  - exfalso. specialize (He e eq_refl).
    unfold emit, try_except in E.
    match type of E with
    | match ?b m with _ => _ end = _ => destruct (b m) as [[a|e0] m0]
    end; [discriminate|].
    destruct (is_Exception e0) eqn:E0.
    + unfold handleError, eprint, modify_os, modify in E. discriminate.
    + inversion E; subst. congruence.
Qed.

Lemma emit_lines_total sched : forall m,
  exists m', emit_lines sched m = (Ok tt, m') /\ child m' = child m.
Proof.
  induction sched as [|[t raw] sched IH]; intros m.
  - exists m. split; reflexivity.
  - cbn [emit_lines].
    destruct (emit_total (strip_ansi_codes (rstrip_LF raw))
                (set_os (set_now t (os m)) m)) as (m1 & He & Hc1).
    destruct (IH m1) as (m2 & Hr & Hc2).
    exists m2. split.
    + rewrite (run_bind_ok _ _ m tt (set_os (set_now t (os m)) m))
        by reflexivity.
      unfold logger_info. rewrite (run_bind_ok _ _ _ _ _ He). exact Hr.
    + rewrite Hc2, Hc1. reflexivity.
Qed.

Lemma read_loop_app sched evs m m1 :
  emit_lines sched m = (Ok tt, m1) ->
  read_loop (lines_at sched ++ evs) m = read_loop evs m1.
Proof.
  revert m. induction sched as [|[t raw] sched IH]; intros m H.
  - cbn in H. inversion H. reflexivity.
  - cbn [lines_at map app read_loop fst snd]. cbn [emit_lines] in H.
    rewrite (run_bind_ok _ _ m tt (set_os (set_now t (os m)) m)) in H
      by reflexivity.
    rewrite (run_bind_ok _ _ m tt (set_os (set_now t (os m)) m))
      by reflexivity.
    destruct (emit_total (strip_ansi_codes (rstrip_LF raw))
                (set_os (set_now t (os m)) m)) as (m2 & He & _).
    unfold logger_info in *.
    rewrite (run_bind_ok _ _ _ _ _ He) in H.
    rewrite (run_bind_ok _ _ _ _ _ He). now apply IH.
Qed.

(** Running the calls on the child: the signal numbers are compared. *)
Ltac prun :=
  mrun;
  repeat (progress
            (try change (SIGTERM =? SIGKILL) with false;
             try change (SIGTERM =? SIGTERM) with true;
             try change (SIGKILL =? SIGKILL) with true;
             cbn [negb andb]; mrun)).

Lemma start_capture_run verbose m :
  spawn_error (child m) = None ->
  exists m0,
    start_capture verbose m = (Ok tt, m0) /\
    child m0 = install SIGINT (install SIGTERM (child m)) /\
    self m0 = self m /\ files (os m0) = files (os m) /\
    stderr (os m0) = stderr (os m).
Proof.
  destruct m as [[fs dw t out err tr zn] h [se al sts eo he rc ins sp]].
  cbn [child spawn_error]. intros ->. eexists. mrun. repeat split.
Qed.

(** C7: a producer whose output ends after the lines of [sched], or whose
    reading is interrupted by [KeyboardInterrupt], and that ends with status
    [s]: on its own when its output ends, or with [-SIGTERM] when the pump
    has to end it and it heeds the signal. When no logging error was
    reported for the lines (every record has reached the disk, and nothing
    is left that closing the stream could fail on), the pump holds [s] as
    the producer's return code after the [finally] clause; a positive [s]
    makes it return 1 after a diagnostic naming [s], zero or a negative [s]
    makes it return 0 with nothing added to standard error. *)
Theorem producer_exit_status_contract
    (verbose interrupted : bool) (sched : list (Z * str)) (m : machine)
    (s : Z) :
  spawn_error (child m) = None ->
  alive (child m) = true -> returncode (child m) = None ->
  (interrupted = false /\ eof_status (child m) = Some s) \/
  ((interrupted = true \/ eof_status (child m) = None) /\
   heeds_sigterm (child m) = true /\ s = - SIGTERM) ->
  let evs := lines_at sched ++
             (if interrupted then [ReadRaises KeyboardInterrupt] else []) in
  exists m0 m1,
    start_capture verbose m = (Ok tt, m0) /\
    emit_lines sched m0 = (Ok tt, m1) /\
    (stderr (os m1) = stderr (os m0) ->
     let '(r, m') := stream_logs_to_file verbose evs m in
     returncode (child m') = Some s /\
     (0 < s ->
      r = Ok 1 /\ stderr (os m') = stderr (os m) ++ [ErrExitedWithCode s]) /\
     (s <= 0 -> r = Ok 0 /\ stderr (os m') = stderr (os m))).
Proof.
  intros Hse Hal Hrc Hcase evs.
  destruct (start_capture_run verbose m Hse) as (m0 & Hs & Hc0 & _ & _ & He0).
  destruct (emit_lines_total sched m0) as (m1 & Hl & Hc1).
  exists m0, m1. split; [exact Hs|]. split; [exact Hl|].
  rewrite He0. intros He1. rewrite <- He1. clear He0 He1.
  unfold stream_logs_to_file. rewrite (run_bind_ok _ _ _ _ _ Hs).
  cbv beta iota delta [mbind M_bind try_finally try_except].
  unfold evs. rewrite (read_loop_app _ _ _ _ Hl).
  rewrite Hc0 in Hc1. clear Hs Hl Hc0 Hse evs.
  destruct m as [w0 h0 [se al sts eo he rc ins sp]].
  cbn [child alive returncode eof_status heeds_sigterm install] in *.
  subst al rc.
  destruct m1 as [[fs dw t out err tr zn] [cls bc st ra] ch].
  cbn [child] in Hc1. subst ch.
  destruct Hcase as [[-> ->] | [Hwhy [-> ->]]].
  - cbn [read_loop]. destruct st, sp; prun;
      repeat match goal with
      | |- context [?a =? ?b] => destruct (Z.eqb_spec a b)
      | |- context [?a <? ?b] => destruct (Z.ltb_spec a b)
      end; prun;
      (split; [reflexivity|]); (split; intros; [try lia|try lia]);
      split; reflexivity.
  - assert (Hcases : interrupted = true \/ (interrupted = false /\ eo = None)).
    { destruct interrupted; [by left|right]. split; [done|].
      by destruct Hwhy. }
    clear Hwhy. unfold SIGTERM.
    destruct Hcases as [-> | [-> ->]]; cbn [read_loop];
      destruct st, sp; prun; (split; [reflexivity|]);
      (split; intros; [try lia|]); split; reflexivity.
Qed.

(** A producer that prints one line and exits with status 2. *)
Lemma producer_exit_status_contract_witness :
  let m := boot (disk ∅ true 1000) (producer 2 true) in
  let sched := [(1000, of_string "boot" ++ [LF])] in
  spawn_error (child m) = None /\ alive (child m) = true /\
  returncode (child m) = None /\ eof_status (child m) = Some 2 /\
  exists m0 m1,
    start_capture false m = (Ok tt, m0) /\
    emit_lines sched m0 = (Ok tt, m1) /\
    stderr (os m1) = stderr (os m0) /\
    let '(r, m') := stream_logs_to_file false (lines_at sched ++ []) m in
    returncode (child m') = Some 2 /\
    r = Ok 1 /\ stderr (os m') = stderr (os m) ++ [ErrExitedWithCode 2].
Proof.
  intros m sched. repeat (split; [reflexivity|]).
  destruct (producer_exit_status_contract false false sched m 2
              eq_refl eq_refl eq_refl (or_introl (conj eq_refl eq_refl)))
    as (m0 & m1 & Hs & Hl & H).
  exists m0, m1. split; [exact Hs|]. split; [exact Hl|].
  assert (He : stderr (os m1) = stderr (os m0)).
  { clear H. revert Hs. vm_compute. intros [= <-].
    revert Hl. vm_compute. intros [= <-]. reflexivity. }
  split; [exact He|]. specialize (H He). revert H.
  destruct (stream_logs_to_file false (lines_at sched ++ []) m) as [r m'].
  intros (H1 & H2 & _). split; [exact H1|]. apply H2. reflexivity.
Defined.

(** C8: a SIGTERM or SIGINT that arrives in the read loop, after the lines
    of [sched], while the child runs; no logging error was reported for
    these lines (every record has reached the disk, and nothing is left that
    closing the stream could fail on). The handler announces the shutdown,
    sends SIGTERM to the child, waits with a timeout of 5 seconds, sends
    SIGKILL if the child has not ended by then, closes the handler's stream
    and raises [SystemExit(0)], which leaves through the [finally] clause:
    for a child it finds reaped the clause does nothing; a child that was
    killed and that [poll] does not yet find ended is sent SIGTERM once more
    and waited for, which reaps it. The interpreter then exits with status 0.
    Nothing is written after the signal: the files are those at the time it
    arrived, whatever the producer would have sent next. *)
Theorem signal_shutdown
    (verbose : bool) (sched : list (Z * str)) (sig : Z) (rest : list pevent)
    (m m0 : machine) :
  sig = SIGTERM \/ sig = SIGINT ->
  start_capture verbose m = (Ok tt, m0) ->
  alive (child m0) = true -> returncode (child m0) = None ->
  exists m1,
    emit_lines sched m0 = (Ok tt, m1) /\
    (stderr (os m1) = stderr (os m0) ->
     let '(r, m') :=
       stream_logs_to_file verbose (lines_at sched ++ Signal sig :: rest) m in
     r = Raise (SystemExit 0) /\ exit_status r = 0 /\
     stdout (os m') = stdout (os m1) ++ [OutReceivedSignal] /\
     stderr (os m') = stderr (os m0) /\
     trace (os m') =
       trace (os m1) ++ [SysKill SIGTERM; SysWait 5] ++
       (if heeds_sigterm (child m0) then [] else [SysKill SIGKILL]) ++
       (if stream (self m1) then [SysClose] else []) ++
       (if heeds_sigterm (child m0) || seen_by_poll (child m0) then []
        else [SysKill SIGTERM; SysWait 5]) /\
     files (os m') = files (os m1) /\
     stream (self m') = false /\
     alive (child m') = false /\
     returncode (child m') =
       Some (if heeds_sigterm (child m0) then - SIGTERM else - SIGKILL)).
Proof.
  intros Hsig Hs Hal Hrc.
  destruct (emit_lines_total sched m0) as (m1 & Hl & Hc).
  exists m1. split; [exact Hl|]. intros He1. rewrite <- He1. clear He1.
  unfold stream_logs_to_file. rewrite (run_bind_ok _ _ _ _ _ Hs).
  assert (Hin : sig ∈ installed (child m1)).
  { rewrite Hc. clear -Hs Hsig.
    destruct m as [w h [se al sts eo he rc ins sp]].
    revert Hs. mrun. destruct se; [discriminate|]. intros [= <-]. cbn.
    destruct Hsig as [-> | ->]; set_solver. }
  cbv beta iota delta [mbind M_bind try_finally try_except].
  rewrite (read_loop_app _ _ _ _ Hl). cbn [read_loop].
  cbv beta iota delta [mbind M_bind deliver_signal get].
  rewrite (bool_decide_eq_true_2 _ Hin).
  rewrite <- Hc in Hal, Hrc. rewrite <- Hc. clear Hc Hl Hs Hin.
  destruct m1 as [[fs dw t out err tr zn] [cls bc st ra] [se al sts eo he rc ins sp]].
  cbn [child alive returncode] in Hal, Hrc. subst al rc.
  destruct he, st, sp; prun; cbn [orb]; repeat split;
    repeat rewrite <- app_assoc; reflexivity.
Qed.

(** SIGTERM reaches the writer after one line; the child ignores SIGTERM and
    a poll right after its end does not find it ended. *)
Lemma signal_shutdown_witness :
  let m := boot (disk ∅ true 1000) (producer 0 false) in
  let sched := [(1000, of_string "boot" ++ [LF])] in
  let rest := [Line 1001 (of_string "late" ++ [LF])] in
  let m0 := (start_capture false m).2 in
  (SIGTERM = SIGTERM \/ SIGTERM = SIGINT) /\
  start_capture false m = (Ok tt, m0) /\
  alive (child m0) = true /\ returncode (child m0) = None /\
  exists m1,
    emit_lines sched m0 = (Ok tt, m1) /\
    stderr (os m1) = stderr (os m0) /\
    let '(r, m') :=
      stream_logs_to_file false (lines_at sched ++ Signal SIGTERM :: rest) m in
    r = Raise (SystemExit 0) /\ exit_status r = 0 /\
    stdout (os m') = stdout (os m1) ++ [OutReceivedSignal] /\
    stderr (os m') = stderr (os m0) /\
    trace (os m') =
      trace (os m1) ++
      [SysKill SIGTERM; SysWait 5; SysKill SIGKILL; SysClose;
       SysKill SIGTERM; SysWait 5] /\
    files (os m') = files (os m1) /\
    stream (self m') = false /\
    alive (child m') = false /\
    returncode (child m') = Some (- SIGKILL).
Proof.
  intros m sched rest m0.
  assert (Hs : start_capture false m = (Ok tt, m0)) by reflexivity.
  split; [left; reflexivity|]. split; [exact Hs|].
  split; [reflexivity|]. split; [reflexivity|].
  destruct (signal_shutdown false sched SIGTERM rest m m0
              (or_introl eq_refl) Hs eq_refl eq_refl) as (m1 & Hl & H).
  exists m1. split; [exact Hl|].
  assert (Hm1 : stderr (os m1) = stderr (os m0) /\ stream (self m1) = true).
  { clear H. revert Hl. vm_compute. intros [= <-]. split; reflexivity. }
  destruct Hm1 as [He Hst]. split; [exact He|].
  specialize (H He). rewrite Hst in H. exact H.
Defined.

(** ** Timed rotation *)

Lemma NoDup_omap_dated (l : list name) : NoDup l -> NoDup (omap dated_day l).
Proof.
  induction 1 as [|a l Ha Hl IH]; cbn; [constructor|].
  destruct a as [|i|d]; cbn; try exact IH.
  constructor; [|exact IH].
  intros Hin. apply list_elem_of_omap in Hin as (x & Hx & Hd).
  destruct x; try discriminate. cbn in Hd. inversion Hd; subst. contradiction.
Qed.

Lemma elem_of_dated_listing (fs : gmap name file) (x : Z) :
  x ∈ omap dated_day (map_to_list fs).*1 <-> is_Some (fs !! Dated x).
Proof.
  rewrite list_elem_of_omap. split.
  - intros (n & Hn & Hd). destruct n; try discriminate.
    cbn in Hd. inversion Hd; subst.
    apply list_elem_of_fmap in Hn as ([n f] & -> & Hin).
    apply elem_of_map_to_list in Hin. cbn. eauto.
  - intros [f Hf]. exists (Dated x). split; [|reflexivity].
    apply list_elem_of_fmap. exists (Dated x, f). split; [reflexivity|].
    now apply elem_of_map_to_list.
Qed.

Lemma StronglySorted_lt_le (ds : list Z) :
  StronglySorted Z.lt ds -> Sorted Z.le ds.
Proof.
  intros H. apply StronglySorted_Sorted.
  induction H as [|x l Hl IH Hx]; constructor; [exact IH|].
  eapply Forall_impl; [exact Hx|]. cbn. intros; lia.
Qed.

Lemma StronglySorted_lt_NoDup (ds : list Z) :
  StronglySorted Z.lt ds -> NoDup ds.
Proof.
  induction 1 as [|x l Hl IH Hx]; constructor; [|exact IH].
  intros Hin. rewrite Forall_forall in Hx. specialize (Hx x Hin). lia.
Qed.

Lemma backup_days_sorted (fs : gmap name file) (ds : list Z) :
  StronglySorted Z.lt ds ->
  (forall x, is_Some (fs !! Dated x) <-> x ∈ ds) ->
  merge_sort Z.le (omap dated_day (map_to_list fs).*1) = ds.
Proof.
  intros Hs Hd. apply (Sorted_unique Z.le).
  - apply Sorted_merge_sort. apply _.
  - now apply StronglySorted_lt_le.
  - rewrite merge_sort_Permutation. apply NoDup_Permutation.
    + apply NoDup_omap_dated, NoDup_fst_map_to_list.
    + now apply StronglySorted_lt_NoDup.
    + intros x. rewrite elem_of_dated_listing. apply Hd.
Qed.

(** * Further properties of the code *)

(** ** Text *)

(** X1: [line.rstrip('\n')] removes a run of trailing line feeds and nothing
    else: the line is its result followed by line feeds only, and the result
    does not end in a line feed. *)
Theorem rstrip_LF_trailing (s : str) :
  exists n : nat,
    s = rstrip_LF s ++ replicate n LF /\
    last (rstrip_LF s) <> Some LF.
Proof.
  induction s as [|c s (n & Hs & Hl)].
  - exists O. split; [reflexivity|discriminate].
  - cbn [rstrip_LF]. destruct (rstrip_LF s) as [|x r] eqn:E.
    + destruct (N.eqb_spec c LF) as [->|Hc].
      * exists (S n). split; [|discriminate]. cbn. now rewrite Hs at 1.
      * exists n. split; [cbn; now rewrite Hs at 1|].
        cbn. intros [= ->]. contradiction.
    + exists n. split; [cbn; now rewrite Hs at 1|]. exact Hl.
Qed.

(** X2: a line as the text stream delivers it, with its one line feed at the
    end or (the last line) without it, loses exactly that terminator. *)
Theorem rstrip_LF_one_terminator (s : str) :
  LF ∉ s -> rstrip_LF (s ++ [LF]) = s /\ rstrip_LF s = s.
Proof.
  intros H.
  assert (Hid : forall t : str, LF ∉ t -> rstrip_LF t = t).
  { induction t as [|c t IH]; intros Ht; [reflexivity|].
    cbn [rstrip_LF]. rewrite IH by (intros Hin; apply Ht; now right).
    destruct t; [|reflexivity].
    destruct (N.eqb_spec c LF) as [->|]; [|reflexivity].
    exfalso. apply Ht. left. }
  split; [|now apply Hid].
  induction s as [|c s IH]; [reflexivity|].
  cbn [app rstrip_LF]. rewrite IH by (intros Hin; apply H; now right).
  destruct s as [|x s]; [|reflexivity].
  destruct (N.eqb_spec c LF) as [->|]; [|reflexivity].
  exfalso. apply H. left.
Qed.

Lemma rstrip_LF_one_terminator_witness :
  (LF ∉ of_string "INFO started") /\
  rstrip_LF (of_string "INFO started" ++ [LF]) = of_string "INFO started" /\
  rstrip_LF (of_string "INFO started") = of_string "INFO started".
Proof.
  assert (H : LF ∉ of_string "INFO started").
  { intros Hin. repeat (apply elem_of_cons in Hin as [Hin|Hin]; [discriminate|]).
    now apply not_elem_of_nil in Hin. }
  split; [exact H|]. exact (rstrip_LF_one_terminator _ H).
Defined.

Lemma removed_sublist s t : removed s t -> t `sublist_of` s.
Proof.
  induction 1 as [|e s t _ _ IH|c s t _ _ IH].
  - constructor.
  - now apply sublist_inserts_l.
  - now constructor.
Qed.

(** X3: [strip_ansi_codes] only deletes: its result is a subsequence of the
    text, so it holds no code point the text does not hold (a cleaned line
    has no line feed of its own), and a text without ESC is returned as it
    is. *)
Theorem strip_ansi_codes_only_deletes (s : str) :
  strip_ansi_codes s `sublist_of` s /\
  (forall c, c ∈ strip_ansi_codes s -> c ∈ s) /\
  (ESC ∉ s -> strip_ansi_codes s = s).
Proof.
  pose proof (removed_sublist _ _ (removed_strip s)) as H.
  split; [exact H|]. split.
  - intros c Hc. eapply elem_of_sublist; eauto.
  - apply strip_no_ESC.
Qed.

(** ** Logging *)

(** X4: [logger.info] never raises into the read loop and leaves the child
    process alone, whatever the state of the disk and of the handler: the
    handler catches every [Exception] of a rollover or a write. *)
Theorem logger_info_never_raises (msg : str) (m : machine) :
  exists m', logger_info msg m = (Ok tt, m') /\ child m' = child m.
Proof. apply emit_total. Qed.

(** X5: in timed mode a rollover that is due in a read-only directory is
    refused, and the record that triggered it is lost: the call returns
    normally, the files are unchanged, the error goes to standard error, and
    the rollover stays due, so that the same happens to the next record. *)
Theorem timed_rollover_failure_drops_line (rec : str) (m : machine) (f : file) :
  h_class (self m) = TimedRotatingFileHandler ->
  files (os m) !! Base = Some f ->
  dir_writable (os m) = false ->
  rolloverAt (self m) <= now (os m) ->
  let '(r, m') := logger_info rec m in
  r = Ok tt /\
  files (os m') = files (os m) /\
  stderr (os m') = stderr (os m) ++ [ErrLoggingError PermissionError] /\
  rolloverAt (self m') = rolloverAt (self m) /\
  stream (self m') = false.
Proof.
  destruct m as [[fs dw t out err tr zn] [cls bc st ra] c].
  cbn [os self files h_class dir_writable rolloverAt now].
  intros -> HB -> Hra. mrun.
  destruct (Z.leb_spec ra t) as [_|]; [|lia]. mrun. rewrite HB. mrun.
  destruct st; mrun; repeat mcase; repeat split.
Qed.

Lemma timed_rollover_failure_drops_line_witness :
  let m := stale_timed_locked in
  let '(r, m') := logger_info (of_string "lost") m in
  r = Ok tt /\
  files (os m') = files (os m) /\
  stderr (os m') = stderr (os m) ++ [ErrLoggingError PermissionError] /\
  rolloverAt (self m') = rolloverAt (self m) /\
  stream (self m') = false.
Proof.
  apply (timed_rollover_failure_drops_line (of_string "lost") stale_timed_locked
           (File (of_string "old") 500 true));
    [reflexivity | reflexivity | reflexivity | vm_compute; discriminate].
Defined.

(** ** Startup *)

(** X6: in single-backup mode, with a writable log in a writable directory,
    startup moves the log, as it is, to [<path>.1] (whatever was there
    before) and leaves a new empty active file; no other entry of the
    directory changes, the rollover is announced and nothing is reported on
    standard error. *)
Theorem single_backup_existing_log_rotated (p : str) (m : machine) (f : file) :
  files (os m) !! Base = Some f -> writable f = true ->
  dir_writable (os m) = true ->
  let '(r, m') := create_log_handler p RdNone m in
  r = Ok tt /\
  files (os m') !! Numbered 1 = Some f /\
  files (os m') !! Base = Some (File [] (now (os m)) true) /\
  (forall n, n <> Base -> n <> Numbered 1 ->
             files (os m') !! n = files (os m) !! n) /\
  stdout (os m') = stdout (os m) ++ [OutUsingRotating; OutRolledOver p] /\
  stderr (os m') = stderr (os m).
Proof.
  destruct m as [[fs dw t out err tr zn] h c]. destruct f as [ct mt wr].
  cbn [os files dir_writable now stderr stdout writable].
  intros HB -> ->. mrun. rewrite HB. mrun.
  repeat mcase; (split; [reflexivity|]); (split; [by simplify_map_eq|]);
    (split; [by simplify_map_eq|]);
    (split; [intros n H1 H2; by simplify_map_eq|]);
    (split; [by rewrite <- app_assoc|reflexivity]).
Qed.

Lemma single_backup_existing_log_rotated_witness :
  let m := dir_with_log in
  let f := File (of_string "old") 500 true in
  let '(r, m') := create_log_handler log_path RdNone m in
  r = Ok tt /\
  files (os m') !! Numbered 1 = Some f /\
  files (os m') !! Base = Some (File [] (now (os m)) true) /\
  (forall n, n <> Base -> n <> Numbered 1 ->
             files (os m') !! n = files (os m) !! n) /\
  stdout (os m') = stdout (os m) ++ [OutUsingRotating; OutRolledOver log_path] /\
  stderr (os m') = stderr (os m).
Proof.
  apply (single_backup_existing_log_rotated log_path dir_with_log
           (File (of_string "old") 500 true)); reflexivity.
Defined.

(** [computeRollover]: the time of day is read off the local clock, by the
    offset in force at that moment, and what is left of the local day is
    added; the result is at most a day ahead. *)
Lemma computeRollover_local (z : timezone) (t : Z) :
  computeRollover z t =
    t + (_MIDNIGHT - seconds_into_day (t + utcoff z t)) /\
  t < computeRollover z t <= t + _MIDNIGHT.
Proof.
  unfold computeRollover, localtime. cbn [tm_seconds].
  unfold seconds_into_day, _MIDNIGHT. change (24 * 60 * 60) with 86400.
  pose proof (Z.mod_pos_bound (t + utcoff z t) 86400 ltac:(lia)) as Hb.
  destruct (Z.ltb_spec (86400 - (t + utcoff z t) mod 86400) 0); lia.
Qed.

(** X7: in timed mode, startup rolls nothing over. When the active file can
    be opened, the only calls are the open and the look at the file's age;
    the files are as before, but for an empty active file created where none
    was; and the first rollover is set to the next midnight of the writer's
    time zone after the last modification of the log (the current time for a
    new log): the end of the local day, by the offset from UTC in force at
    that moment, and at most a day ahead. When the file cannot be opened, the
    program exits with status 1 and a message. *)
Theorem timed_startup_keeps_log (p : str) (n : Z) (m : machine) :
  n <> 0 ->
  let '(r, m') := create_log_handler p (RdInt n) m in
  if can_open (os m) then
    r = Ok tt /\
    files (os m') =
      match files (os m) !! Base with
      | Some _ => files (os m)
      | None => <[Base := File [] (now (os m)) true]> (files (os m))
      end /\
    trace (os m') = trace (os m) ++ [SysOpen Base; SysExists Base; SysStat Base] /\
    stream (self m') = true /\
    let t0 :=
      match files (os m) !! Base with
      | Some f => mtime f
      | None => now (os m)
      end in
    rolloverAt (self m') =
      t0 + (_MIDNIGHT - seconds_into_day (t0 + utcoff (tz (os m)) t0)) /\
    t0 < rolloverAt (self m') <= t0 + _MIDNIGHT
  else
    r = Raise (SystemExit 1) /\
    files (os m') = files (os m) /\
    stderr (os m') = stderr (os m) ++ [ErrPermissionDenied p PermissionError].
Proof.
  intros Hn. destruct m as [[fs dw t out err tr zn] h c].
  mrun. destruct (Z.eqb_spec n 0) as [|_]; [contradiction|].
  cbv beta iota delta [negb]. mrun.
  repeat mcase; repeat split; rewrite <- ?app_assoc; try reflexivity;
    apply computeRollover_local.
Qed.

(** One hour east of UTC, a log last written at 00:08:20 UTC, which is
    01:08:20 local time, is first rolled over at 23:00:00 UTC. *)
Lemma timed_startup_keeps_log_witness :
  7 <> 0 /\
  let m := in_zone CET dir_with_log in
  let '(r, m') := create_log_handler log_path (RdInt 7) m in
  r = Ok tt /\
  files (os m') = files (os m) /\
  trace (os m') = trace (os m) ++ [SysOpen Base; SysExists Base; SysStat Base] /\
  stream (self m') = true /\
  rolloverAt (self m') = 82800.
Proof.
  split; [discriminate|].
  pose proof (timed_startup_keeps_log log_path 7 (in_zone CET dir_with_log)
                ltac:(discriminate)) as H.
  revert H. vm_compute. intros (H1 & H2 & H3 & H4 & H5 & _).
  repeat split; assumption.
Defined.

(** ** The end of streaming *)

(** X8: when reading the producer's output raises an [Exception], the pump
    reports it and returns 1, whatever the producer's exit status; the
    [finally] clause has run by then: the handler's stream is closed, the
    child, if it had not been reaped, has been ended, and no file has
    changed. *)
Theorem streaming_error_returns_failure
    (verbose : bool) (evs : list pevent) (m m0 : machine)
    (e : exn) (m1 : machine) :
  start_capture verbose m = (Ok tt, m0) ->
  read_loop evs m0 = (Raise e, m1) ->
  is_Exception e = true ->
  let '(r, m') := stream_logs_to_file verbose evs m in
  r = Ok 1 /\
  stderr (os m') = stderr (os m1) ++ [ErrStreaming e] /\
  files (os m') = files (os m1) /\
  stream (self m') = false /\
  (returncode (child m1) = None -> alive (child m') = false).
Proof.
  intros Hs Hl He. unfold stream_logs_to_file.
  rewrite (run_bind_ok _ _ _ _ _ Hs).
  cbv beta iota delta [mbind M_bind try_finally try_except]. rewrite Hl.
  destruct m1 as [[fs dw t out err tr zn] [cls bc st ra] [se al sts eo he rc ins sp]].
  destruct e; try discriminate He; clear He Hl Hs;
    destruct rc as [rc|], al, he, st, sp; prun; repeat split; discriminate.
Qed.

Lemma streaming_error_returns_failure_witness :
  let m := boot (disk ∅ true 1000) (producer 0 true) in
  let evs := [ReadRaises OtherException] in
  let m0 := (start_capture false m).2 in
  let m1 := (read_loop evs m0).2 in
  let '(r, m') := stream_logs_to_file false evs m in
  r = Ok 1 /\
  stderr (os m') = stderr (os m1) ++ [ErrStreaming OtherException] /\
  files (os m') = files (os m1) /\
  stream (self m') = false /\
  (returncode (child m1) = None -> alive (child m') = false).
Proof.
  intros m evs m0 m1.
  apply (streaming_error_returns_failure false evs m m0 OtherException m1);
    reflexivity.
Defined.

(** X9: when the output has ended but the child still runs and does not end
    on SIGTERM within the 5 seconds, the [finally] clause sends SIGKILL and
    does not wait again: [returncode] is still [None], and the pump returns 0
    without a diagnostic. *)
Theorem unresponsive_producer_is_killed
    (verbose : bool) (evs : list pevent) (m m0 m1 : machine) :
  start_capture verbose m = (Ok tt, m0) ->
  read_loop evs m0 = (Ok tt, m1) ->
  alive (child m1) = true -> returncode (child m1) = None ->
  heeds_sigterm (child m1) = false ->
  let '(r, m') := stream_logs_to_file verbose evs m in
  r = Ok 0 /\
  returncode (child m') = None /\ alive (child m') = false /\
  stderr (os m') = stderr (os m1) /\
  trace (os m') =
    trace (os m1) ++ [SysKill SIGTERM; SysWait 5; SysKill SIGKILL] ++
    (if stream (self m1) then [SysClose] else []).
Proof.
  intros Hs Hl Ha Hr Hh. unfold stream_logs_to_file.
  rewrite (run_bind_ok _ _ _ _ _ Hs).
  cbv beta iota delta [mbind M_bind try_finally try_except]. rewrite Hl.
  destruct m1 as [[fs dw t out err tr zn] [cls bc st ra] [se al sts eo he rc ins sp]].
  cbn [child alive returncode heeds_sigterm] in Ha, Hr, Hh. subst al rc he.
  clear Hl Hs. destruct st; mrun; repeat split;
    repeat rewrite <- app_assoc; reflexivity.
Qed.

Lemma unresponsive_producer_is_killed_witness :
  let m := boot (disk ∅ true 1000) lingering_producer in
  let evs := [Line 1000 (of_string "last" ++ [LF])] in
  let m0 := (start_capture false m).2 in
  let m1 := (read_loop evs m0).2 in
  let '(r, m') := stream_logs_to_file false evs m in
  r = Ok 0 /\
  returncode (child m') = None /\ alive (child m') = false /\
  stderr (os m') = stderr (os m1) /\
  trace (os m') =
    trace (os m1) ++ [SysKill SIGTERM; SysWait 5; SysKill SIGKILL] ++
    (if stream (self m1) then [SysClose] else []).
Proof.
  intros m evs m0 m1.
  apply (unresponsive_producer_is_killed false evs m m0 m1); reflexivity.
Defined.

(** X10: the cleanup of the [finally] clause (and of the signal handler)
    leaves the handler's stream closed and a child that had not been reaped
    ended. Run a second time, as it is when the handler's [SystemExit]
    leaves through the [finally] clause, it returns, changes neither the
    files nor the handler and prints nothing; a child the first run had to
    kill is reaped by it, at once when [poll] finds it ended, else after one
    more SIGTERM and a wait. After the second run the child is always
    reaped. *)
Theorem cleanup_twice (m : machine) :
  let '(r1, m1) := cleanup m in
  let '(r2, m2) := cleanup m1 in
  stream (self m1) = false /\
  (returncode (child m) = None -> alive (child m1) = false) /\
  r2 = Ok tt /\
  files (os m2) = files (os m1) /\ self m2 = self m1 /\
  stdout (os m2) = stdout (os m1) /\ stderr (os m2) = stderr (os m1) /\
  trace (os m2) =
    trace (os m1) ++
    match returncode (child m1) with
    | Some _ => []
    | None =>
        if seen_by_poll (child m1) then [] else [SysKill SIGTERM; SysWait 5]
    end /\
  is_Some (returncode (child m2)).
Proof.
  destruct m as [[fs dw t out err tr zn] [cls bc st ra] [se al sts eo he rc ins sp]].
  destruct rc as [rc|], al, he, st, sp; prun; rewrite ?app_nil_r;
    repeat split; try discriminate; try reflexivity; eauto;
    by rewrite <- !app_assoc.
Qed.

(** ** Timed rotation: the directory after a rollover *)

Lemma lookup_delete_all l (fs : gmap name file) n :
  delete_all l fs !! n = if decide (n ∈ l) then None else fs !! n.
Proof.
  revert fs. induction l as [|a l IH]; intros fs; cbn [delete_all].
  - destruct (decide (n ∈ [])) as [H|]; [by apply not_elem_of_nil in H|done].
  - rewrite IH. destruct (decide (n = a)) as [->|Hne].
    + rewrite lookup_delete_eq.
      destruct (decide (a ∈ l)), (decide (a ∈ a :: l)) as [|Hn]; try done;
        exfalso; apply Hn; left.
    + rewrite lookup_delete_ne by done.
      destruct (decide (n ∈ l)) as [Hi|Hi], (decide (n ∈ a :: l)) as [Hj|Hj];
        try done.
      * exfalso. apply Hj. now right.
      * exfalso. apply elem_of_cons in Hj as [|]; done.
Qed.

Lemma dated_present fs D x :
  dated_contents fs D -> is_Some (fs !! Dated x) <-> x ∈ D.*1.
Proof.
  intros H. rewrite <- (fmap_is_Some content), H.
  destruct (decide (x ∈ D.*1)) as [Hin|Hin].
  - split; [done|]. intros _.
    destruct (list_to_map D !! x) eqn:E; [eauto|].
    by apply not_elem_of_list_to_map in E.
  - split; [|done]. intros [c Hc].
    apply not_elem_of_list_to_map_1 in Hin. unfold str, codepoint in *. congruence.
Qed.

Lemma dated_contents_prune fs D k :
  StronglySorted Z.lt D.*1 -> dated_contents fs D ->
  dated_contents (delete_all (Dated <$> take k D.*1) fs) (drop k D).
Proof.
  intros Hs Hd x. rewrite lookup_delete_all.
  apply StronglySorted_lt_NoDup in Hs.
  rewrite <- (take_drop k D), fmap_app, NoDup_app in Hs.
  destruct Hs as (_ & Hdisj & _).
  destruct (decide (Dated x ∈ Dated <$> take k D.*1)) as [Hin|Hin].
  - apply list_elem_of_fmap in Hin as (y & [= <-] & Hy).
    rewrite <- fmap_take in Hy. apply Hdisj in Hy.
    cbn. symmetry. now apply not_elem_of_list_to_map_1.
  - assert (Hx : x ∉ (take k D).*1).
    { intros Hx. apply Hin. apply list_elem_of_fmap. exists x.
      split; [done|]. by rewrite <- fmap_take. }
    rewrite Hd. rewrite <- (take_drop k D) at 1.
    rewrite list_to_map_app. apply lookup_union_r.
    now apply not_elem_of_list_to_map_1.
Qed.

Lemma dated_contents_rotate fs D d f :
  Forall (fun x => x < d) D.*1 -> dated_contents fs D ->
  dated_contents (<[Dated d := f]> (delete Base fs)) (D ++ [(d, content f)]).
Proof.
  intros Hlt Hd x. rewrite list_to_map_app.
  destruct (decide (x = d)) as [->|Hne].
  - rewrite lookup_insert_eq. cbn.
    rewrite lookup_union_r.
    + by rewrite lookup_insert_eq.
    + apply not_elem_of_list_to_map_1. intros Hin.
      rewrite Forall_forall in Hlt. specialize (Hlt d Hin). lia.
  - rewrite lookup_insert_ne by congruence.
    rewrite lookup_delete_ne by done. rewrite Hd.
    symmetry. apply lookup_union_l. cbn.
    rewrite lookup_insert_ne by done. apply lookup_empty.
Qed.

Lemma sorted_snoc_days (D : list (Z * str)) d c :
  StronglySorted Z.lt D.*1 -> Forall (fun x => x < d) D.*1 ->
  StronglySorted Z.lt (D ++ [(d, c)]).*1.
Proof.
  intros Hs Hlt. rewrite fmap_app. cbn.
  induction Hs as [|x l Hl IH Hx]; cbn.
  - repeat constructor.
  - inversion Hlt; subst. constructor; [now apply IH|].
    apply Forall_app. split; [exact Hx|]. repeat constructor. done.
Qed.

Lemma day_of_lt t d : t < (d + 1) * _MIDNIGHT <-> day_of t <= d.
Proof.
  unfold day_of, _MIDNIGHT. change (24 * 60 * 60) with 86400.
  split; intros H.
  - assert (t / 86400 < d + 1); [|lia].
    apply Z.div_lt_upper_bound; lia.
  - pose proof (Z.mod_pos_bound t 86400 ltac:(lia)).
    pose proof (Z.div_mod t 86400 ltac:(lia)). nia.
Qed.

Lemma local_day_lt off t d :
  t < (d + 1) * _MIDNIGHT - off <-> local_day off t <= d.
Proof. unfold local_day. rewrite <- day_of_lt. lia. Qed.

Lemma fixed_zone_isdst off z t :
  fixed_zone off z -> tm_isdst (localtime z t) = false.
Proof. intros Hz. cbn. apply Hz. Qed.

Lemma fixed_zone_date off z t :
  fixed_zone off z -> tm_date (localtime z t) = local_day off t.
Proof. intros Hz. cbn. unfold local_day. by destruct (Hz t) as [-> _]. Qed.

Lemma computeRollover_next off z t :
  fixed_zone off z ->
  computeRollover z t = (local_day off t + 1) * _MIDNIGHT - off.
Proof.
  intros Hz. destruct (computeRollover_local z t) as [-> _].
  destruct (Hz t) as [-> _].
  unfold local_day, seconds_into_day, day_of, _MIDNIGHT.
  change (24 * 60 * 60) with 86400.
  pose proof (Z.div_mod (t + off) 86400 ltac:(lia)). lia.
Qed.

Lemma catch_up_next z t : catch_up (computeRollover z t) t = computeRollover z t.
Proof.
  unfold catch_up. destruct (computeRollover_local z t) as [_ [H _]].
  destruct (Z.leb_spec (computeRollover z t) t); [lia|reflexivity].
Qed.

Lemma local_day_previous off d :
  local_day off ((d + 1) * _MIDNIGHT - off - interval) = d.
Proof.
  unfold local_day, day_of, _MIDNIGHT, interval.
  replace ((d + 1) * (24 * 60 * 60) - off - 60 * 60 * 24 + off)
    with (d * 86400) by lia.
  change (24 * 60 * 60) with 86400. apply Z.div_mul. lia.
Qed.

Lemma remove_all_run l : forall fs dw t out err tr zn h c,
  dw = true -> NoDup l -> (forall n, n ∈ l -> is_Some (fs !! n)) ->
  remove_all l (Machine (World fs dw t out err tr zn) h c) =
  (Ok tt,
   Machine (World (delete_all l fs) dw t out err (tr ++ (SysRemove <$> l)) zn) h c).
Proof.
  induction l as [|a l IH]; intros fs dw t out err tr zn h c -> Hnd Hex.
  - cbn. by rewrite app_nil_r.
  - cbn [remove_all delete_all]. inversion Hnd as [|? ? Ha Hl]; subst.
    destruct (Hex a) as [f Hf]; [left|].
    assert (Hstep :
      os_remove a (Machine (World fs true t out err tr zn) h c) =
      (Ok tt,
       Machine (World (delete a fs) true t out err (tr ++ [SysRemove a]) zn) h c)).
    { cbv beta iota zeta delta
        [os_remove syscall_ modify_os modify get mbind M_bind set_os set_files
         add_trace os files dir_writable now stdout stderr trace self child
         raise].
      rewrite Hf. reflexivity. }
    rewrite (run_bind_ok _ _ _ _ _ Hstep). rewrite IH; try done.
    + cbn. by rewrite <- app_assoc.
    + intros n Hn. rewrite lookup_delete_ne; [apply Hex; now right|].
      intros ->. contradiction.
Qed.

Lemma retained_length {A} (n : Z) (h : list A) :
  0 < n -> length (retained n h) = Nat.min (length h) (Z.to_nat n).
Proof.
  intros Hn. unfold retained.
  destruct (Z.ltb_spec 0 n); [|lia]. rewrite length_drop. lia.
Qed.

Lemma retained_suffix {A} (n : Z) (h : list A) :
  exists old, h = old ++ retained n h.
Proof.
  unfold retained. destruct (0 <? n).
  - eexists. symmetry. apply take_drop.
  - exists []. reflexivity.
Qed.

(** ** Timed rotation: one record *)


Lemma getFilesToDelete_run fs D N dw t out err tr zn cls st ra ch :
  StronglySorted Z.lt D.*1 -> dated_contents fs D -> 0 < N ->
  getFilesToDelete
    (Machine (World fs dw t out err tr zn) (Handler cls N st ra) ch) =
  (Ok (Dated <$> take (length D - Z.to_nat N) D.*1),
   Machine (World fs dw t out err (tr ++ [SysListdir]) zn) (Handler cls N st ra) ch).
Proof.
  intros Hs Hd HN.
  pose proof (backup_days_sorted fs D.*1 Hs
                (fun x => dated_present fs D x Hd)) as Hsort.
  assert (Hlen : length (omap dated_day (map_to_list fs).*1) = length D).
  { rewrite <- (length_fmap fst D), <- Hsort.
    symmetry. apply Permutation_length, merge_sort_Permutation. }
  cbv beta iota zeta delta
    [getFilesToDelete os_listdir syscall_ modify_os modify get mbind M_bind
     mret M_ret set_os add_trace os files dir_writable now stdout stderr trace
     self child backupCount].
  rewrite Hlen, Hsort.
  destruct (Z.ltb_spec (Z.of_nat (length D)) N) as [Hlt|Hge].
  - replace (length D - Z.to_nat N)%nat with O by lia. reflexivity.
  - replace (Z.to_nat (Z.of_nat (length D) - N))
      with (length D - Z.to_nat N)%nat by lia.
    reflexivity.
Qed.

#[local] Instance Dated_inj : Inj (=) (=) Dated.
Proof. intros x y [=]. done. Qed.

Lemma NoDup_take {A} (l : list A) k : NoDup l -> NoDup (take k l).
Proof.
  intros H. rewrite <- (take_drop k l) in H. by apply NoDup_app in H as (? & _).
Qed.

Lemma timed_steady_after_rollover off N (D' : list (Z * str)) t line fs2
    out err tr zn ch :
  fixed_zone off zn ->
  StronglySorted Z.lt D'.*1 -> Forall (fun x => x < local_day off t) D'.*1 ->
  dated_contents fs2 D' ->
  timed_steady off N D' (local_day off t) line
    (Machine
       (World
          (alter (fun f => File (content f ++ line) t (writable f)) Base
                 (<[Base := File [] t true]> fs2))
          true t out err tr zn)
       (Handler TimedRotatingFileHandler N true (computeRollover zn t))
       ch).
Proof.
  intros Hz Hs Hlt Hd. unfold timed_steady.
  cbn [os self files h_class backupCount stream rolloverAt dir_writable tz].
  repeat split; try done; try apply Hz.
  - by apply computeRollover_next.
  - exists t. by simplify_map_eq.
  - intros x. rewrite lookup_alter_ne by done.
    rewrite lookup_insert_ne by done. apply Hd.
Qed.


(** X12: in timed mode, in a time zone whose offset from UTC does not
    change, the first record of a later local day triggers the rollover
    before it is written: the active file becomes the backup dated with the
    local day of its last write, the backups beyond the newest [backupCount]
    are deleted (none when the count is not positive), the record opens the
    new active file, and the next rollover is the local midnight that ends
    the record's day; numbered backups are left alone and nothing is
    reported on standard error. *)
Theorem timed_emit_next_day
    (off N : Z) (D : list (Z * str)) (d : Z) (c : str) (m : machine)
    (t : Z) (raw : str) :
  timed_steady off N D d c m -> d < local_day off t ->
  let line := strip_ansi_codes (rstrip_LF raw) ++ [LF] in
  let '(r, m') := emit_lines [(t, raw)] m in
  r = Ok tt /\
  timed_steady off N (retained N (D ++ [(d, c)])) (local_day off t) line m' /\
  (forall i, files (os m') !! Numbered i = files (os m) !! Numbered i) /\
  stderr (os m') = stderr (os m).
Proof.
  destruct m as [[fs dw t0 out err tr zn] [cls bc st ra] ch].
  intros (Hz & Hc & Hn & Hst & Hra & Hdw & (mt & HB & Hmt) & Hs & Hlt & Hd) Ht.
  cbn [os self files h_class backupCount stream rolloverAt dir_writable tz] in *.
  subst cls bc st ra dw. cbn [emit_lines]. mrun.
  assert (Hge : (d + 1) * _MIDNIGHT - off <= t).
  { destruct (Z.le_gt_cases ((d + 1) * _MIDNIGHT - off) t) as [|Hgt]; [done|].
    apply local_day_lt in Hgt. lia. }
  destruct (Z.leb_spec ((d + 1) * _MIDNIGHT - off) t) as [_|]; [|lia]. mrun.
  repeat (rewrite HB; mrun).
  rewrite !(fixed_zone_isdst off zn _ Hz). cbn [negb Bool.eqb]. mrun.
  rewrite (fixed_zone_date off zn _ Hz), local_day_previous, catch_up_next.
  assert (Hnone : fs !! Dated d = None).
  { destruct (fs !! Dated d) eqn:E; [|done].
    assert (Hin : d ∈ D.*1) by (apply (dated_present fs D d Hd); eauto).
    rewrite Forall_forall in Hlt. specialize (Hlt d Hin). lia. }
  rewrite Hnone. mrun. repeat (rewrite HB; mrun).
  pose proof (sorted_snoc_days D d c Hs Hlt) as Hs1.
  pose proof (dated_contents_rotate fs D d (File c mt true) Hlt Hd) as Hd1.
  cbn [content] in Hd1.
  assert (Hlt1 : Forall (fun x => x < local_day off t) (D ++ [(d, c)]).*1).
  { rewrite fmap_app. apply Forall_app. split.
    - eapply Forall_impl; [exact Hlt|]. cbn. intros; lia.
    - repeat constructor. cbn. lia. }
  unfold retained.
  destruct (Z.ltb_spec 0 N) as [HN|HN].
  - rewrite (getFilesToDelete_run _ (D ++ [(d, c)]) N _ _ _ _ _ _ _ _ _ _
               Hs1 Hd1 HN).
    cbv beta iota.
    set (k := (length (D ++ [(d, c)]) - Z.to_nat N)%nat).
    rewrite remove_all_run; [|reflexivity| |].
    2:{ apply NoDup_fmap_2; [apply _|].
        apply NoDup_take. by apply StronglySorted_lt_NoDup. }
    2:{ intros n Hn. apply list_elem_of_fmap in Hn as (x & -> & Hx).
        apply (dated_present _ _ x Hd1).
        eapply elem_of_sublist; [exact Hx|apply sublist_take]. }
    mrun.
    match goal with
    | |- context [delete_all ?l ?f !! Base] =>
        assert (HBn : delete_all l f !! Base = None)
    end.
    { rewrite lookup_delete_all.
      match goal with
      | |- context [decide ?P] => destruct (decide P) as [Hin|_]
      end.
      - done.
      - rewrite lookup_insert_ne by done. apply lookup_delete_eq. }
    rewrite HBn. mrun.
    split; [reflexivity|]. split; [|split; [|reflexivity]].
    + apply timed_steady_after_rollover; [exact Hz| | |].
      * rewrite fmap_drop. rewrite <- (take_drop k (_.*1)) in Hs1.
        by apply StronglySorted_app_1_r in Hs1.
      * rewrite fmap_drop. by apply Forall_drop.
      * exact (dated_contents_prune _ (D ++ [(d, c)]) k Hs1 Hd1).
    + intros i. rewrite lookup_alter_ne by done.
      rewrite lookup_insert_ne by done. rewrite lookup_delete_all.
      match goal with
      | |- context [decide ?P] => destruct (decide P) as [Hin|_]
      end.
      { apply list_elem_of_fmap in Hin as (x & [=] & _). }
      rewrite lookup_insert_ne by done. by rewrite lookup_delete_ne.
  - mrun.
    assert (HBn : <[Dated d := File c mt true]> (delete Base fs) !! Base = None).
    { rewrite lookup_insert_ne by done. apply lookup_delete_eq. }
    rewrite HBn. mrun.
    split; [reflexivity|]. split; [|split; [|reflexivity]].
    + by apply timed_steady_after_rollover.
    + intros i. rewrite lookup_alter_ne by done.
      rewrite lookup_insert_ne by done.
      rewrite lookup_insert_ne by done. by rewrite lookup_delete_ne.
Qed.



(** [timed_second_day_cet] is in the steady state of the local day 1. *)
Lemma timed_second_day_cet_steady :
  timed_steady 3600 1 [(0, of_string "yesterday")] 1 (of_string "today")
    timed_second_day_cet.
Proof.
  unfold timed_steady, timed_second_day_cet.
  cbn [os self files h_class backupCount stream rolloverAt dir_writable disk
       set_tz tz].
  repeat split; try done.
  - exists 90000. split; [by simplify_map_eq|reflexivity].
  - repeat constructor.
  - repeat constructor.
  - intros x. rewrite lookup_insert_ne by done.
    destruct (decide (x = 0)) as [->|Hne].
    + reflexivity.
    + rewrite lookup_singleton_ne by congruence. cbn.
      rewrite lookup_insert_ne by done. by rewrite lookup_empty.
Qed.

(** At 170000 it is still day 1 in UTC, and day 2 one hour east of it. *)
Lemma timed_emit_next_day_witness :
  timed_steady 3600 1 [(0, of_string "yesterday")] 1 (of_string "today")
    timed_second_day_cet /\
  1 < local_day 3600 170000 /\
  let m := timed_second_day_cet in
  let line := strip_ansi_codes (rstrip_LF (of_string "more")) ++ [LF] in
  let '(r, m') := emit_lines [(170000, of_string "more")] m in
  r = Ok tt /\
  timed_steady 3600 1 [(1, of_string "today")] 2 line m' /\
  (forall i, files (os m') !! Numbered i = files (os m) !! Numbered i) /\
  stderr (os m') = stderr (os m).
Proof.
  split; [exact timed_second_day_cet_steady|]. split; [reflexivity|].
  exact (timed_emit_next_day 3600 1 [(0, of_string "yesterday")] 1
           (of_string "today") timed_second_day_cet 170000 (of_string "more")
           timed_second_day_cet_steady eq_refl).
Defined.
